(** * cricket_analytics_app.py: the data pipeline of the dashboard

    The script loads a table of player statistics with pandas, narrows it
    by a year range and a set of player names, lists the numeric columns,
    aggregates them per player and hands chart descriptions to plotly.

    The embedding follows the script top to bottom.  A pandas [DataFrame]
    is kept column-major, as pandas keeps it: a row index and an ordered
    list of named [Series], each with its [Dtype] and its cells.  A
    float64 value is an exact rational and the float NaN is the missing
    value.  Python exceptions are the [Raise] side of [result].  The
    pandas calls of the script ([between], [isin], boolean indexing,
    [groupby] with its four reductions, [reset_index], [to_numeric],
    [dropna]) are functions here that do what pandas documents for them
    with the arguments the script passes.

    The tables of the model are those whose columns [pd.read_csv] types
    int64, float64 or object and whose numbers are finite.  Columns
    typed bool or uint64, the two infinities, the rounding of floating
    arithmetic and the wrap-around of int64 sums are outside it, and so
    are the checks that plotly and the pandas Styler make on what they
    are handed: a chart request is recorded as the script issues it. *)

From Stdlib Require Import ZArith QArith Qround String List Bool Lia Sorted.
From stdpp Require Import list strings.

Local Open Scope string_scope.

(** ** Cells, series and frames *)

Inductive cell : Type :=
| NaN
| Num (q : Q)
| Str (s : string).

(** The dtypes that [pd.read_csv] gives to integer, floating and text
    columns; [pd.to_numeric] only ever answers the first two. *)
Inductive Dtype : Type := int64 | float64 | object.

Record Series : Type := mkSeries {
  dtype : Dtype;
  values : list cell
}.

Record DataFrame : Type := mkFrame {
  index : list nat;
  columns : list (string * Series)
}.

Definition nrows (df : DataFrame) : nat := length (index df).

Definition column_names (df : DataFrame) : list string := map fst (columns df).

(** ** Exceptions *)

Inductive exn : Type :=
| KeyError (key : string)
| TypeError
| IndexError
| ValueError.

Inductive result (A : Type) : Type :=
| Ok (a : A)
| Raise (e : exn).

Arguments Ok {A} a.
Arguments Raise {A} e.

#[export] Instance result_ret : MRet result := fun A a => Ok a.

#[export] Instance result_bind : MBind result := fun A B f m =>
  match m with
  | Ok a => f a
  | Raise e => Raise e
  end.

Fixpoint traverse {A B : Type} (f : A -> result B) (l : list A) : result (list B) :=
  match l with
  | [] => Ok []
  | x :: l' => y ← f x; ys ← traverse f l'; Ok (y :: ys)
  end.

(** ** Column access: [col in df.columns] and [df[col]] *)

Fixpoint find_column (name : string) (cols : list (string * Series)) : option Series :=
  match cols with
  | [] => None
  | (n, s) :: cols' => if String.eqb name n then Some s else find_column name cols'
  end.

Definition has_column (df : DataFrame) (name : string) : bool :=
  match find_column name (columns df) with
  | Some _ => true
  | None => false
  end.

Definition getitem (df : DataFrame) (name : string) : result Series :=
  match find_column name (columns df) with
  | Some s => Ok s
  | None => Raise (KeyError name)
  end.

(** ** The pandas operations of the filter (lines 74-81) *)

(** [Series.between(left, right)] is [(s >= left) & (s <= right)], both
    ends included.  A missing cell compares false; comparing a text cell
    with an integer raises. *)
Definition cell_between (left right : Z) (c : cell) : result bool :=
  match c with
  | NaN => Ok false
  | Num q => Ok (Qle_bool (inject_Z left) q && Qle_bool q (inject_Z right))
  | Str _ => Raise TypeError
  end.

Definition between (s : Series) (left right : Z) : result (list bool) :=
  traverse (cell_between left right) (values s).

(** Equality of cells as [isin] and [unique] see it: a missing value
    matches a missing value. *)
Definition cell_eqb (a b : cell) : bool :=
  match a, b with
  | NaN, NaN => true
  | Num p, Num q => Qeq_bool p q
  | Str s, Str t => String.eqb s t
  | _, _ => false
  end.

Definition cell_isin (vals : list cell) (c : cell) : bool :=
  existsb (cell_eqb c) vals.

Definition isin (s : Series) (vals : list cell) : list bool :=
  map (cell_isin vals) (values s).

(** [m1 & m2] on two boolean series over the same index. *)
Fixpoint mask_and (m1 m2 : list bool) : list bool :=
  match m1, m2 with
  | a :: m1', b :: m2' => (a && b) :: mask_and m1' m2'
  | _, _ => []
  end.

(** [df[mask]]: the rows whose mask entry is true, in order, with their
    index labels; every column keeps its name, its place and its dtype. *)
Fixpoint take_rows {A : Type} (mask : list bool) (xs : list A) : list A :=
  match mask, xs with
  | b :: mask', x :: xs' =>
      if b then x :: take_rows mask' xs' else take_rows mask' xs'
  | _, _ => []
  end.

Definition series_rows (mask : list bool) (s : Series) : Series :=
  {| dtype := dtype s; values := take_rows mask (values s) |}.

Definition boolean_index (df : DataFrame) (mask : list bool) : DataFrame :=
  {| index := take_rows mask (index df);
     columns := map (fun c => (fst c, series_rows mask (snd c))) (columns df) |}.

(** [selected_years] is the slider's pair of integers, or [(None, None)]
    ([None] here) when the table has no Year column. *)
Definition year_mask (year : Series) (selected_years : option (Z * Z)) : result (list bool) :=
  match selected_years with
  | Some (lo, hi) => between year lo hi
  | None => Raise TypeError
  end.

Definition filtered_df (df : DataFrame) (selected_years : option (Z * Z))
    (selected_players : list cell) : result DataFrame :=
  if has_column df "Year" then
    year ← getitem df "Year";
    in_range ← year_mask year selected_years;
    player ← getitem df "Player_Name";
    Ok (boolean_index df (mask_and in_range (isin player selected_players)))
  else
    player ← getitem df "Player_Name";
    Ok (boolean_index df (isin player selected_players)).

(** ** The sidebar (lines 53-72) *)

(** [Series.min()] and [Series.max()] skip missing values and answer NaN
    when nothing is left.  After [load_data] the Year column holds numbers
    only; on a text cell the model answers [TypeError]. *)
Fixpoint numbers (cs : list cell) : result (list Q) :=
  match cs with
  | [] => Ok []
  | NaN :: cs' => numbers cs'
  | Num q :: cs' => qs ← numbers cs'; Ok (q :: qs)
  | Str _ :: _ => Raise TypeError
  end.

Definition q_min (a b : Q) : Q := if Qle_bool a b then a else b.
Definition q_max (a b : Q) : Q := if Qle_bool a b then b else a.

Definition minimum (qs : list Q) : cell :=
  match qs with
  | [] => NaN
  | q :: qs' => Num (fold_left q_min qs' q)
  end.

Definition maximum (qs : list Q) : cell :=
  match qs with
  | [] => NaN
  | q :: qs' => Num (fold_left q_max qs' q)
  end.

(** Python's [int(x)] on a float truncates toward zero and refuses NaN. *)
Definition int (c : cell) : result Z :=
  match c with
  | Num q => Ok (Z.quot (Qnum q) (Z.pos (Qden q)))
  | NaN => Raise ValueError
  | Str _ => Raise TypeError
  end.

(** The slider's bounds, which are also its default value. *)
Definition year_bounds (df : DataFrame) : result (option (Z * Z)) :=
  if has_column df "Year" then
    year ← getitem df "Year";
    qs ← numbers (values year);
    min_year ← int (minimum qs);
    max_year ← int (maximum qs);
    Ok (Some (min_year, max_year))
  else Ok None.

(** [Series.unique()]: the distinct values in order of first appearance,
    the missing value included.  Line 66 sorts this list for display;
    the filter only asks which values are in it.  The sort itself, which
    raises [TypeError] when a missing name stands among text names, is
    not part of the model. *)
Fixpoint unique (cs : list cell) : list cell :=
  match cs with
  | [] => []
  | c :: cs' => c :: List.filter (fun d => negb (cell_eqb d c)) (unique cs')
  end.

Definition distinct_players (df : DataFrame) : list cell :=
  match find_column "Player_Name" (columns df) with
  | Some s => unique (values s)
  | None => []
  end.

(** ** The metric catalogue (lines 121-122 and 319-320) *)

Definition is_metric_dtype (d : Dtype) : bool :=
  match d with
  | int64 | float64 => true
  | object => false
  end.

Definition available_metrics (df : DataFrame) : list string :=
  List.filter
    (fun col => match find_column col (columns df) with
                | Some s => is_metric_dtype (dtype s)
                | None => false
                end)
    (column_names df).

(** ** The aggregator (lines 197, 281 and 340-348) *)

Inductive method : Type := Mean | Sum | Max | Min.

Definition q_sum (qs : list Q) : Q := fold_left Qplus qs 0%Q.

Definition present (cs : list cell) : list Q :=
  flat_map (fun c => match c with Num q => [q] | _ => [] end) cs.

(** One aggregate cell: the reduction of the values that are present.
    pandas' group-by [sum] has [min_count=0], so it answers 0 on no
    values while the other three answer NaN.  Sums and means are exact
    here; the largest and the smallest value are the ones pandas
    gives. *)
Definition reduce (m : method) (cs : list cell) : cell :=
  let qs := present cs in
  match m with
  | Mean =>
      match qs with
      | [] => NaN
      | _ => Num (Qred (q_sum qs / inject_Z (Z.of_nat (length qs))))
      end
  | Sum => Num (Qred (q_sum qs))
  | Max =>
      match qs with
      | [] => NaN
      | q :: qs' => Num (Qred (fold_left q_max qs' q))
      end
  | Min =>
      match qs with
      | [] => NaN
      | q :: qs' => Num (Qred (fold_left q_min qs' q))
      end
  end.

Definition reduce_dtype (m : method) (d : Dtype) : Dtype :=
  match m with
  | Mean => float64
  | _ => d
  end.

(** Group keys come out sorted and without the missing value
    ([sort=True], [dropna=True]). *)
Definition cell_leb (a b : cell) : bool :=
  match a, b with
  | Num p, Num q => Qle_bool p q
  | Str s, Str t => String.leb s t
  | Num _, Str _ => true
  | Str _, Num _ => false
  | NaN, _ => true
  | _, NaN => false
  end.

Fixpoint insert_sorted (c : cell) (l : list cell) : list cell :=
  match l with
  | [] => [c]
  | d :: l' => if cell_leb c d then c :: d :: l' else d :: insert_sorted c l'
  end.

Definition sort_cells (l : list cell) : list cell :=
  fold_right insert_sorted [] l.

Definition notna (c : cell) : bool :=
  match c with
  | NaN => false
  | _ => true
  end.

Definition group_keys (by_ : Series) : list cell :=
  sort_cells (unique (List.filter notna (values by_))).

(** The cells of a column on the rows of one group. *)
Definition group_cells (by_ : Series) (k : cell) (s : Series) : list cell :=
  take_rows (map (cell_eqb k) (values by_)) (values s).

Record GroupBy : Type := mkGroupBy {
  keys : Series;
  aggregates : list (string * Series)
}.

(** Metrics reach the aggregator from a multiselect over
    [available_metrics], so their dtype is int64 or float64.  On a text
    column pandas' [mean] raises [TypeError]; the model answers the same
    for the other three reductions, which the application never asks
    for on text. *)
Definition aggregate_column (m : method) (by_ : Series) (s : Series) : result Series :=
  if is_metric_dtype (dtype s) then
    Ok {| dtype := reduce_dtype m (dtype s);
          values := map (fun k => reduce m (group_cells by_ k s)) (group_keys by_) |}
  else Raise TypeError.

(** [df.groupby(by)[metrics].agg()] *)
Definition groupby_agg (m : method) (df : DataFrame) (by_ : string)
    (metrics : list string) : result GroupBy :=
  key ← getitem df by_;
  selected ← traverse (fun c => s ← getitem df c; Ok (c, s)) metrics;
  aggs ← traverse (fun cs => a ← aggregate_column m key (snd cs); Ok (fst cs, a)) selected;
  Ok {| keys := {| dtype := dtype key; values := group_keys key |};
        aggregates := aggs |}.

(** [.reset_index()] turns the keys into the first column and numbers the
    rows from 0; it refuses when a column of that name is already there. *)
Definition reset_index (by_ : string) (g : GroupBy) : result DataFrame :=
  match find_column by_ (aggregates g) with
  | Some _ => Raise ValueError
  | None =>
      Ok {| index := seq 0 (length (values (keys g)));
            columns := (by_, keys g) :: aggregates g |}
  end.

Definition comparison_df (m : method) (df : DataFrame) (metrics : list string)
    : result DataFrame :=
  g ← groupby_agg m df "Player_Name" metrics;
  reset_index "Player_Name" g.

(** ** What a page shows *)

Inductive trace : Type :=
| Scatterpolar (r : list cell) (theta : list string) (name : cell).

(** A chart request: the plotly call with the arguments the script binds
    (the fixed styling arguments are left out).  The two [_long] requests
    of the comparison page carry the aggregate table, which the script
    passes through [melt(id_vars=...)]. *)
Inductive figure : Type :=
| px_bar (data : DataFrame) (x y color : string) (animation_frame : option string)
| px_line (data : DataFrame) (x y color : string)
| px_scatter (data : DataFrame) (x y color : string) (size : option string) (hover_name : string)
| go_radar (traces : list trace)
| px_box (data : DataFrame) (x y color : string)
| px_violin (data : DataFrame) (x y color : string)
| go_combo (x : Series) (bar_y line_y : string * Series)
| px_imshow (data : GroupBy) (x : list string)
| px_parallel_coordinates (data : DataFrame) (color : string) (dimensions : list string)
| px_bar_long (wide : DataFrame) (id_vars : string)
| px_line_long (wide : DataFrame) (id_vars : string)
| px_scatter_matrix (data : DataFrame) (dimensions : list string) (color : string).

Inductive output : Type :=
| st_subheader (text : string)
| st_warning (text : string)
| st_error (text : string)
| st_error_exception (text : string) (e : exn)
| st_write (text : string)
| st_write_frame (df : DataFrame)
| st_dataframe (df : DataFrame)
| st_plotly_chart (fig : figure).

(** A page runs top to bottom; what it has shown stays on screen when an
    exception ends it. *)
Definition Page (A : Type) : Type := list output -> list output * result A.

#[export] Instance page_ret : MRet Page := fun A a shown => (shown, Ok a).

#[export] Instance page_bind : MBind Page := fun A B f m shown =>
  match m shown with
  | (shown', Ok a) => f a shown'
  | (shown', Raise e) => (shown', Raise e)
  end.

Definition show (o : output) : Page unit := fun shown => ((shown ++ [o])%list, Ok tt).

Definition lift {A : Type} (r : result A) : Page A := fun shown => (shown, r).

Definition skip : Page unit := fun shown => (shown, Ok tt).

Definition try_except {A : Type} (body : Page A) (handler : exn -> Page A) : Page A :=
  fun shown =>
    match body shown with
    | (shown', Raise e) => handler e shown'
    | done => done
    end.

Definition render {A : Type} (p : Page A) : list output * result A := p [].

(** ** The radar loop (lines 199-208 and 403-412) *)

(** [series == player], element by element: unlike [isin], a missing
    value equals nothing. *)
Definition cell_equals (a b : cell) : bool :=
  match a, b with
  | Num p, Num q => Qeq_bool p q
  | Str s, Str t => String.eqb s t
  | _, _ => false
  end.

(** [frame[metrics].values[0]]: the first row of the selected columns. *)
Definition first_row (df : DataFrame) (metrics : list string) : result (list cell) :=
  cols ← traverse (getitem df) metrics;
  match index df with
  | [] => Raise IndexError
  | _ :: _ => Ok (map (fun s => hd NaN (values s)) cols)
  end.

Definition player_trace (agg : DataFrame) (metrics : list string) (player : cell)
    : result trace :=
  names ← getitem agg "Player_Name";
  let player_data := boolean_index agg (map (fun c => cell_equals c player) (values names)) in
  r ← first_row player_data metrics;
  Ok (Scatterpolar r metrics player).

Definition radar_traces (agg : DataFrame) (metrics : list string)
    (selected_players : list cell) : result (list trace) :=
  traverse (player_trace agg metrics) selected_players.

(** ** The Performance Analysis page (lines 114-309) *)

Inductive viz : Type :=
| BarChart | LineChart | ScatterPlot | RadarChart | BoxPlot | ViolinPlot
| ComboChart | Heatmap | ParallelCoordinates.

(** The widgets' answers are arguments: the visualisation type, the
    primary metric, the secondary metric ([None] for the entry 'None')
    and the metrics ticked in the branch's multiselect. *)
Definition performance_analysis (filtered : DataFrame) (selected_players : list cell)
    (viz_type : viz) (primary_metric : string) (secondary_metric : option string)
    (metrics : list string) : Page unit :=
  _ ← show (st_subheader "Interactive Visualizations");
  match selected_players with
  | [] => show (st_warning "Please select at least one player")
  | _ :: _ =>
      let year := has_column filtered "Year" in
      match viz_type with
      | BarChart =>
          show (st_plotly_chart
            (px_bar filtered "Player_Name" primary_metric "Player_Name"
               (if year then Some "Year" else None)))
      | LineChart =>
          show (st_plotly_chart
            (px_line filtered (if year then "Year" else "Player_Name")
               primary_metric "Player_Name"))
      | ScatterPlot =>
          match secondary_metric with
          | Some secondary =>
              show (st_plotly_chart
                (px_scatter filtered primary_metric secondary "Player_Name"
                   (if has_column filtered "Matches_Played" then Some "Matches_Played" else None)
                   (if year then "Year" else "Player_Name")))
          | None => show (st_warning "Please select a secondary metric for scatter plot")
          end
      | RadarChart =>
          if (0 <? length selected_players)%nat then
            match metrics with
            | [] => skip
            | _ :: _ =>
                radar_df ← lift (comparison_df Mean filtered metrics);
                traces ← lift (radar_traces radar_df metrics selected_players);
                show (st_plotly_chart (go_radar traces))
            end
          else skip
      | BoxPlot =>
          show (st_plotly_chart (px_box filtered "Player_Name" primary_metric "Player_Name"))
      | ViolinPlot =>
          show (st_plotly_chart (px_violin filtered "Player_Name" primary_metric "Player_Name"))
      | ComboChart =>
          match secondary_metric with
          | Some secondary =>
              x ← lift (getitem filtered "Player_Name");
              y1 ← lift (getitem filtered primary_metric);
              y2 ← lift (getitem filtered secondary);
              show (st_plotly_chart (go_combo x (primary_metric, y1) (secondary, y2)))
          | None => show (st_warning "Please select a secondary metric for combo chart")
          end
      | Heatmap =>
          if (1 <? length selected_players)%nat then
            match metrics with
            | [] => skip
            | _ :: _ =>
                heatmap_df ← lift (groupby_agg Mean filtered "Player_Name" metrics);
                show (st_plotly_chart (px_imshow heatmap_df metrics))
            end
          else skip
      | ParallelCoordinates =>
          if (1 <? length selected_players)%nat then
            match metrics with
            | [] => skip
            | _ :: _ =>
                show (st_plotly_chart
                  (px_parallel_coordinates filtered "Player_Name" metrics))
            end
          else skip
      end
  end.

(** ** The Advanced Comparisons page (lines 312-425) *)

Inductive comparison_viz : Type := CompareBars | CompareLines | ScatterMatrix.

(** [df[names]]: the named columns, in the order asked. *)
Definition select_columns (df : DataFrame) (names : list string) : result DataFrame :=
  cols ← traverse (fun c => s ← getitem df c; Ok (c, s)) names;
  Ok {| index := index df; columns := cols |}.

(** [df.head()]: the first five rows. *)
Definition head (df : DataFrame) : DataFrame :=
  {| index := firstn 5 (index df);
     columns := map (fun c => (fst c, {| dtype := dtype (snd c);
                                         values := firstn 5 (values (snd c)) |}))
                    (columns df) |}.

Definition comparison_results (filtered : DataFrame) (selected_players : list cell)
    (comparison_metrics : list string) (comparison_method : method)
    (viz_type : comparison_viz) : Page unit :=
  agg ← lift (comparison_df comparison_method filtered comparison_metrics);
  _ ← show (st_subheader "📊 Comparison Results");
  _ ← show (st_dataframe agg);
  _ ← show (st_plotly_chart
        match viz_type with
        | CompareBars => px_bar_long agg "Player_Name"
        | CompareLines => px_line_long agg "Player_Name"
        | ScatterMatrix => px_scatter_matrix agg comparison_metrics "Player_Name"
        end);
  traces ← lift (radar_traces agg comparison_metrics selected_players);
  show (st_plotly_chart (go_radar traces)).

Definition comparison_failed (filtered : DataFrame) (comparison_metrics : list string)
    (e : exn) : Page unit :=
  _ ← show (st_error_exception "Error generating comparison: " e);
  _ ← show (st_write "Debug Info - Filtered Data:");
  debug ← lift (select_columns filtered ("Player_Name" :: comparison_metrics));
  show (st_write_frame (head debug)).

Definition advanced_comparisons (filtered : DataFrame) (selected_players : list cell)
    (comparison_metrics : list string) (comparison_method : method)
    (viz_type : comparison_viz) : Page unit :=
  _ ← show (st_subheader "Comprehensive Player Comparison");
  if (length selected_players <? 2)%nat then
    show (st_warning "Please select at least 2 players for comparison")
  else
    match available_metrics filtered with
    | [] => show (st_error "No numeric metrics found for comparison")
    | _ :: _ =>
        match comparison_metrics with
        | [] => skip
        | _ :: _ =>
            try_except
              (comparison_results filtered selected_players comparison_metrics
                 comparison_method viz_type)
              (comparison_failed filtered comparison_metrics)
        end
    end.

(** ** The loader (lines 9-31), after [pd.read_csv] has typed the columns *)

Section Loader.

(** How pandas reads a number out of a text cell: an integer literal,
    a floating literal, or nothing. *)
Variable parse_number : string -> option (Z + Q).

Definition coerce (c : cell) : cell :=
  match c with
  | Str s =>
      match parse_number s with
      | Some (inl z) => Num (inject_Z z)
      | Some (inr q) => Num q
      | None => NaN
      end
  | _ => c
  end.

Definition reads_as_integer (c : cell) : bool :=
  match c with
  | Str s => match parse_number s with Some (inl _) => true | _ => false end
  | _ => false
  end.

(** [pd.to_numeric(s, errors='coerce')]: a numeric series is returned
    as it is; a text series becomes int64 when every cell reads as an
    integer and float64 otherwise, unreadable cells turning into NaN. *)
Definition to_numeric (s : Series) : Series :=
  match dtype s with
  | object =>
      {| dtype := if forallb reads_as_integer (values s) then int64 else float64;
         values := map coerce (values s) |}
  | _ => s
  end.

(** [df[col] = s] on a column that exists: replaced in place. *)
Fixpoint replace_column (name : string) (s : Series) (cols : list (string * Series))
    : list (string * Series) :=
  match cols with
  | [] => []
  | (n, old) :: cols' =>
      if String.eqb name n then (n, s) :: cols'
      else (n, old) :: replace_column name s cols'
  end.

Definition coerce_column (df : DataFrame) (col : string) : DataFrame :=
  match find_column col (columns df) with
  | Some s => {| index := index df;
                 columns := replace_column col (to_numeric s) (columns df) |}
  | None => df
  end.

Definition numeric_cols : list string :=
  ["Matches_Played"; "Runs_Scored"; "Batting_Average"; "Batting_Strike_Rate";
   "Centuries"; "Half_Centuries"; "Wickets_Taken"; "Bowling_Average"; "Economy_Rate"].

(** [df.dropna(subset=[col])] *)
Definition dropna (df : DataFrame) (col : string) : DataFrame :=
  match find_column col (columns df) with
  | Some s => boolean_index df (map notna (values s))
  | None => df
  end.

Definition load_data (parsed : DataFrame) : DataFrame :=
  let df := fold_left coerce_column numeric_cols parsed in
  if has_column df "Year" then dropna (coerce_column df "Year") "Year" else df.

End Loader.

(** ** Well-formed and loaded tables *)

Definition whole (q : Q) : bool := (Z.pos (Qden q) =? 1)%Z.

Definition cell_fits (d : Dtype) (c : cell) : bool :=
  match d, c with
  | int64, Num q => whole q
  | float64, (Num _ | NaN) => true
  | object, (Str _ | NaN) => true
  | _, _ => false
  end.

Definition series_ok (n : nat) (s : Series) : bool :=
  (length (values s) =? n)%nat && forallb (cell_fits (dtype s)) (values s).

Definition well_formed (df : DataFrame) : bool :=
  forallb (fun c => series_ok (nrows df) (snd c)) (columns df).

(** What [load_data] guarantees about the Year column: it is numeric
    and no cell of it is missing. *)
Definition year_ok (df : DataFrame) : bool :=
  match find_column "Year" (columns df) with
  | Some s => is_metric_dtype (dtype s) && forallb notna (values s)
  | None => true
  end.

Definition loaded (df : DataFrame) : bool := well_formed df && year_ok df.

(** ** Reading an aggregate table, and the selections the properties speak of *)

Fixpoint row_of (player : cell) (names : list cell) : option nat :=
  match names with
  | [] => None
  | c :: names' => if cell_equals c player then Some 0%nat else S <$> row_of player names'
  end.

(** The aggregate of [metric] on the row of [player], if there is one. *)
Definition aggregate_cell (agg : DataFrame) (player : cell) (metric : string) : option cell :=
  names ← find_column "Player_Name" (columns agg);
  s ← find_column metric (columns agg);
  i ← row_of player (values names);
  values s !! i.

Definition aggregate (m : method) (df : DataFrame) (metrics : list string)
    (player : cell) (metric : string) : option cell :=
  match comparison_df m df metrics with
  | Ok agg => aggregate_cell agg player metric
  | Raise _ => None
  end.

Definition has_row (agg : DataFrame) (player : cell) : bool :=
  match find_column "Player_Name" (columns agg) with
  | Some names => existsb (fun c => cell_equals c player) (values names)
  | None => false
  end.

(** The range holds every year of the table. *)
Definition years_within (df : DataFrame) (selected_years : option (Z * Z)) : bool :=
  match find_column "Year" (columns df), selected_years with
  | None, _ => true
  | Some s, Some (lo, hi) =>
      forallb (fun c => match cell_between lo hi c with Ok b => b | Raise _ => false end)
              (values s)
  | Some _, None => false
  end.

(** The second range lies inside the first. *)
Definition narrower (inner outer : option (Z * Z)) : Prop :=
  match inner, outer with
  | Some (lo', hi'), Some (lo, hi) => (lo <= lo')%Z /\ (hi' <= hi)%Z
  | None, None => True
  | _, _ => False
  end.

(** The column is there with one of the two numeric dtypes. *)
Definition typed_numeric (df : DataFrame) (col : string) : Prop :=
  exists s, find_column col (columns df) = Some s /\ is_metric_dtype (dtype s) = true.

(** No cell of the series is text: every cell that is present is a number. *)
Definition all_numeric (s : Series) : bool :=
  forallb (fun c => match c with Str _ => false | _ => true end) (values s).

Definition whole_years (df : DataFrame) : bool :=
  match find_column "Year" (columns df) with
  | Some s => forallb (fun c => match c with Num q => whole q | _ => false end) (values s)
  | None => true
  end.

Definition shows_chart (o : output) : bool :=
  match o with
  | st_plotly_chart _ => true
  | _ => false
  end.

(** What one aggregate column is: named after the metric, and holding
    for each group key the reduction of the metric's cells on the rows
    of that group. *)
Definition aggregate_of (m : method) (df : DataFrame) (key : Series)
    (c : string) (a : string * Series) : Prop :=
  fst a = c /\
  exists s, find_column c (columns df) = Some s
            /\ is_metric_dtype (dtype s) = true
            /\ snd a = {| dtype := reduce_dtype m (dtype s);
                          values := map (fun k => reduce m (group_cells key k s))
                                        (group_keys key) |}.

Definition trace_name (t : trace) : cell :=
  match t with
  | Scatterpolar _ _ name => name
  end.

Definition trace_r (t : trace) : list cell :=
  match t with
  | Scatterpolar r _ _ => r
  end.

(** ** Example tables *)

(** Entities A and B, metric M with A: 10, 20 and B: 5, in any row order
    and as an integer or a floating column. *)
Definition metric_table (d : Dtype) (rows : list (string * Q)) : DataFrame :=
  {| index := seq 0 (length rows);
     columns :=
       [("Player_Name", {| dtype := object; values := map (fun r => Str (fst r)) rows |});
        ("M", {| dtype := d; values := map (fun r => Num (snd r)) rows |})] |}.

Definition rows_AB : list (string * Q) := [("A", 10%Q); ("A", 20%Q); ("B", 5%Q)].

(** Player A has no value of M at all. *)
Definition no_values_for_A : DataFrame :=
  {| index := [0; 1; 2]%nat;
     columns :=
       [("Player_Name", {| dtype := object; values := [Str "A"; Str "B"; Str "A"] |});
        ("M", {| dtype := float64; values := [NaN; Num 5; NaN] |})] |}.

(** The second season is recorded as 2020.5. *)
Definition half_season : DataFrame :=
  {| index := [0; 1]%nat;
     columns :=
       [("Player_Name", {| dtype := object; values := [Str "A"; Str "A"] |});
        ("Year", {| dtype := float64; values := [Num 2019; Num (4041 # 2)] |})] |}.

(** The scenario table of the specification. *)
Definition scenario : DataFrame :=
  {| index := [0; 1; 2]%nat;
     columns :=
       [("Player_Name", {| dtype := object; values := [Str "A"; Str "A"; Str "B"] |});
        ("Year", {| dtype := int64; values := [Num 2020; Num 2021; Num 2020] |});
        ("Runs_Scored", {| dtype := int64; values := [Num 100; Num 150; Num 80] |})] |}.

(** A table without the Player_Name column. *)
Definition no_player_column : DataFrame :=
  {| index := [0; 1]%nat;
     columns :=
       [("Year", {| dtype := int64; values := [Num 2020; Num 2021] |});
        ("Runs_Scored", {| dtype := int64; values := [Num 100; Num 150] |})] |}.

(** A text column whose only text cell belongs to player B. *)
Definition with_notes : DataFrame :=
  {| index := [0; 1]%nat;
     columns :=
       [("Player_Name", {| dtype := object; values := [Str "A"; Str "B"] |});
        ("Runs_Scored", {| dtype := int64; values := [Num 100; Num 80] |});
        ("Notes", {| dtype := object; values := [NaN; Str "captain"] |})] |}.

Definition notes_of_A : DataFrame :=
  {| index := [0]%nat;
     columns :=
       [("Player_Name", {| dtype := object; values := [Str "A"] |});
        ("Runs_Scored", {| dtype := int64; values := [Num 100] |});
        ("Notes", {| dtype := object; values := [NaN] |})] |}.

(** Player B has a row in 2021 only. *)
Definition two_seasons : DataFrame :=
  {| index := [0; 1]%nat;
     columns :=
       [("Player_Name", {| dtype := object; values := [Str "A"; Str "B"] |});
        ("Year", {| dtype := int64; values := [Num 2020; Num 2021] |});
        ("Runs_Scored", {| dtype := int64; values := [Num 100; Num 80] |})] |}.

Definition season_2020 : DataFrame :=
  {| index := [0]%nat;
     columns :=
       [("Player_Name", {| dtype := object; values := [Str "A"] |});
        ("Year", {| dtype := int64; values := [Num 2020] |});
        ("Runs_Scored", {| dtype := int64; values := [Num 100] |})] |}.

(** The per-player means of [season_2020]. *)
Definition season_2020_means : DataFrame :=
  {| index := [0]%nat;
     columns :=
       [("Player_Name", {| dtype := object; values := [Str "A"] |});
        ("Runs_Scored", {| dtype := float64; values := [Num 100] |})] |}.

(** ** The Data Explorer page: the table of missing values (lines 108-111) *)





(** ** What the further properties speak of *)

(** The rows the loader keeps: those whose Year reads as a number, and
    all of them when there is no Year column. *)
Definition rows_kept (parse_number : string -> option (Z + Q)) (parsed : DataFrame)
    : list bool :=
  match find_column "Year" (columns parsed) with
  | Some year => map notna (values (to_numeric parse_number year))
  | None => map (fun _ => true) (index parsed)
  end.

(** Every player of the table is in the selection. *)
Definition players_within (df : DataFrame) (selected_players : list cell) : bool :=
  match find_column "Player_Name" (columns df) with
  | Some s => forallb (cell_isin selected_players) (values s)
  | None => true
  end.


(** The values a group holds for a metric, when the table has the
    Player_Name column, the metric is a numeric column and the player has
    a row. *)
Definition group_of (df : DataFrame) (player : cell) (metric : string) : option (list cell) :=
  key ← find_column "Player_Name" (columns df);
  s ← find_column metric (columns df);
  if is_metric_dtype (dtype s) && existsb (fun c => cell_equals c player) (values key)
  then Some (group_cells key player s)
  else None.

Definition shows_radar (o : output) : option (list trace) :=
  match o with
  | st_plotly_chart (go_radar traces) => Some traces
  | _ => None
  end.

(** Some row of the table belongs to [player] and holds the number [q]
    in the column [metric]. *)
Definition has_value (df : DataFrame) (player : cell) (metric : string) (q : Q) : Prop :=
  exists key s i name,
    find_column "Player_Name" (columns df) = Some key
    /\ find_column metric (columns df) = Some s
    /\ values key !! i = Some name
    /\ cell_equals name player = true
    /\ values s !! i = Some (Num q).

(** A file in which no Year cell reads as a number. *)
Definition unreadable_years : DataFrame :=
  {| index := [0; 1]%nat;
     columns :=
       [("Player_Name", {| dtype := object; values := [Str "A"; Str "B"] |});
        ("Year", {| dtype := object; values := [Str "n/a"; NaN] |});
        ("Runs_Scored", {| dtype := object; values := [Str "100"; Str "many"] |})] |}.

(** Reads the text [100] as the integer 100 and nothing else. *)
Definition parse_100 (s : string) : option (Z + Q) :=
  if String.eqb s "100" then Some (inl 100%Z) else None.

(** A file read as text throughout, with one year and one score that do
    not read as numbers. *)
Definition raw_seasons : DataFrame :=
  {| index := [0; 1; 2]%nat;
     columns :=
       [("Player_Name", {| dtype := object; values := [Str "A"; Str "B"; Str "C"] |});
        ("Year", {| dtype := object; values := [Str "2020"; Str "n/a"; Str "2021"] |});
        ("Runs_Scored", {| dtype := object; values := [Str "100"; Str "150"; Str "many"] |})] |}.

Definition parse_seasons (s : string) : option (Z + Q) :=
  if String.eqb s "2020" then Some (inl 2020%Z)
  else if String.eqb s "2021" then Some (inl 2021%Z)
  else if String.eqb s "100" then Some (inl 100%Z)
  else if String.eqb s "150" then Some (inl 150%Z)
  else None.

(** Players known by number, so that Player_Name is a numeric column. *)
Definition numbered_players : DataFrame :=
  {| index := [0; 1]%nat;
     columns :=
       [("Player_Name", {| dtype := int64; values := [Num 7; Num 10] |});
        ("Runs_Scored", {| dtype := int64; values := [Num 100; Num 80] |})] |}.

(** * Properties *)

Ltac unbind := unfold mbind, result_bind, mret, result_ret in *.

(** ** Columns *)

Lemma has_column_find df name :
  has_column df name = true <-> exists s, find_column name (columns df) = Some s.
Proof.
  unfold has_column. destruct (find_column name (columns df)) as [s|].
  - split; [eauto | reflexivity].
  - split; [discriminate | intros [s Hs]; discriminate].
Qed.

Lemma has_column_none df name :
  has_column df name = false <-> find_column name (columns df) = None.
Proof.
  unfold has_column. destruct (find_column name (columns df)); split; congruence.
Qed.

Lemma find_column_In name cols s :
  find_column name cols = Some s -> In (name, s) cols.
Proof.
  induction cols as [|[n t] cols IH]; simpl; [discriminate|].
  destruct (String.eqb name n) eqn:E.
  - apply String.eqb_eq in E. intros [= ->]. subst. now left.
  - intros H. right. now apply IH.
Qed.

Lemma find_column_names name cols :
  In name (map fst cols) <-> exists s, find_column name cols = Some s.
Proof.
  induction cols as [|[n t] cols IH]; simpl.
  - split; [tauto | intros [s Hs]; discriminate].
  - destruct (String.eqb name n) eqn:E.
    + apply String.eqb_eq in E. subst. split; eauto.
    + apply String.eqb_neq in E. rewrite <- IH. split.
      * intros [H|H]; [congruence | exact H].
      * tauto.
Qed.

Lemma well_formed_column df name s :
  well_formed df = true -> find_column name (columns df) = Some s ->
  length (values s) = nrows df /\ forallb (cell_fits (dtype s)) (values s) = true.
Proof.
  unfold well_formed. intros Hwf Hfind.
  apply find_column_In in Hfind.
  rewrite forallb_forall in Hwf. specialize (Hwf _ Hfind). simpl in Hwf.
  unfold series_ok in Hwf. apply andb_true_iff in Hwf as [Hlen Hfit].
  apply Nat.eqb_eq in Hlen. auto.
Qed.

(** ** Boolean masks *)

Lemma take_rows_all {A : Type} (mask : list bool) (xs : list A) :
  length mask = length xs -> forallb id mask = true -> take_rows mask xs = xs.
Proof.
  revert xs. induction mask as [|b mask IH]; intros [|x xs]; simpl; try discriminate; auto.
  intros [= Hlen] Hall. apply andb_true_iff in Hall as [Hb Hall].
  unfold id in Hb. subst b. f_equal. now apply IH.
Qed.

Lemma take_rows_none {A : Type} (mask : list bool) (xs : list A) :
  forallb negb mask = true -> take_rows mask xs = [].
Proof.
  revert xs. induction mask as [|b mask IH]; intros [|x xs]; simpl; auto.
  intros Hall. apply andb_true_iff in Hall as [Hb Hall].
  destruct b; [discriminate | now apply IH].
Qed.

Lemma take_rows_le {A : Type} (inner outer : list bool) (xs : list A) :
  Forall2 (fun a b => implb a b = true) inner outer ->
  length (take_rows inner xs) <= length (take_rows outer xs).
Proof.
  intros H. revert xs. induction H as [|a b inner outer Hab H IH]; intros [|x xs]; simpl; auto.
  specialize (IH xs). destruct a, b; simpl in *; try discriminate; lia.
Qed.

Lemma mask_and_le (a a' b b' : list bool) :
  Forall2 (fun x y => implb x y = true) a' a ->
  Forall2 (fun x y => implb x y = true) b' b ->
  Forall2 (fun x y => implb x y = true) (mask_and a' b') (mask_and a b).
Proof.
  intros Ha. revert b b'. induction Ha as [|x y a' a Hxy Ha IH]; intros b b' Hb.
  - destruct Hb; simpl; constructor.
  - destruct Hb as [|u v b' b Huv Hb]; simpl; constructor.
    + destruct x, y, u, v; simpl in *; congruence.
    + now apply IH.
Qed.

Lemma mask_and_all (a b : list bool) :
  forallb id a = true -> forallb id b = true -> forallb id (mask_and a b) = true.
Proof.
  revert b. induction a as [|x a IH]; intros [|y b]; simpl; auto.
  intros Ha Hb. apply andb_true_iff in Ha as [Hx Ha]. apply andb_true_iff in Hb as [Hy Hb].
  unfold id in *. subst. simpl. now apply IH.
Qed.

Lemma mask_and_length (a b : list bool) :
  length a = length b -> length (mask_and a b) = length a.
Proof.
  revert b. induction a as [|x a IH]; intros [|y b]; simpl; try discriminate; auto.
Qed.

Lemma mask_and_none_r (a b : list bool) :
  forallb negb b = true -> forallb negb (mask_and a b) = true.
Proof.
  revert b. induction a as [|x a IH]; intros [|y b]; simpl; auto.
  intros Hb. apply andb_true_iff in Hb as [Hy Hb]. destruct y; [discriminate|].
  rewrite andb_false_r. simpl. now apply IH.
Qed.

Lemma find_column_boolean_index df mask name :
  find_column name (columns (boolean_index df mask))
  = series_rows mask <$> find_column name (columns df).
Proof.
  unfold boolean_index. simpl.
  induction (columns df) as [|[n s] cols IH]; simpl; [reflexivity|].
  destruct (String.eqb name n); [reflexivity | exact IH].
Qed.

(** ** Cell equality *)

Lemma cell_eqb_refl c : cell_eqb c c = true.
Proof.
  destruct c; simpl; auto using Qeq_bool_refl. apply String.eqb_refl.
Qed.

Lemma cell_eqb_trans a b c :
  cell_eqb a b = true -> cell_eqb b c = true -> cell_eqb a c = true.
Proof.
  destruct a, b, c; simpl; try discriminate; auto.
  - apply Qeq_bool_trans.
  - intros H1 H2. apply String.eqb_eq in H1, H2. subst. apply String.eqb_refl.
Qed.

Lemma cell_eqb_sym a b : cell_eqb a b = cell_eqb b a.
Proof.
  destruct a, b; simpl; auto using Qeq_bool_comm, String.eqb_sym.
Qed.

Lemma cell_isin_incl (inner outer : list cell) c :
  incl inner outer -> cell_isin inner c = true -> cell_isin outer c = true.
Proof.
  unfold cell_isin. intros Hincl H.
  apply existsb_exists in H as [x [Hx Heq]].
  apply existsb_exists. exists x. auto.
Qed.

Lemma cell_isin_eqb vals a b :
  cell_eqb a b = true -> cell_isin vals b = true -> cell_isin vals a = true.
Proof.
  unfold cell_isin. intros Hab H.
  apply existsb_exists in H as [x [Hx Heq]].
  apply existsb_exists. exists x. split; [exact Hx|].
  eapply cell_eqb_trans; eauto.
Qed.

Lemma unique_represents cs c :
  In c cs -> exists d, In d (unique cs) /\ cell_eqb c d = true.
Proof.
  induction cs as [|x cs IH]; simpl; [tauto|].
  intros [->|Hin].
  - exists c. split; [now left | apply cell_eqb_refl].
  - destruct (IH Hin) as [d [Hd Hcd]].
    destruct (cell_eqb d x) eqn:E.
    + exists x. split; [now left | eapply cell_eqb_trans; eauto].
    + exists d. split; [|exact Hcd]. right.
      apply filter_In. split; [exact Hd | now rewrite E].
Qed.

(** ** The filter *)

Lemma cell_between_narrower lo hi lo' hi' c :
  (lo <= lo')%Z -> (hi' <= hi)%Z ->
  match cell_between lo hi c, cell_between lo' hi' c with
  | Ok b, Ok b' => implb b' b = true
  | Raise e, Raise e' => e = e'
  | _, _ => False
  end.
Proof.
  intros Hlo Hhi. destruct c as [|q|s]; simpl; auto.
  destruct (Qle_bool (inject_Z lo') q && Qle_bool q (inject_Z hi')) eqn:E; simpl; auto.
  apply andb_true_iff in E as [E1 E2].
  apply Qle_bool_iff in E1, E2.
  apply andb_true_iff. split; apply Qle_bool_iff.
  - eapply Qle_trans; [|exact E1]. now rewrite <- Zle_Qle.
  - eapply Qle_trans; [exact E2|]. now rewrite <- Zle_Qle.
Qed.

Lemma between_narrower lo hi lo' hi' cs :
  (lo <= lo')%Z -> (hi' <= hi)%Z ->
  match traverse (cell_between lo hi) cs, traverse (cell_between lo' hi') cs with
  | Ok m, Ok m' => Forall2 (fun a b => implb a b = true) m' m
  | Raise e, Raise e' => e = e'
  | _, _ => False
  end.
Proof.
  intros Hlo Hhi. induction cs as [|c cs IH]; simpl.
  - constructor.
  - pose proof (cell_between_narrower lo hi lo' hi' c Hlo Hhi) as Hc.
    unbind.
    destruct (cell_between lo hi c), (cell_between lo' hi' c); try contradiction; auto.
    destruct (traverse (cell_between lo hi) cs), (traverse (cell_between lo' hi') cs);
      try contradiction; auto.
Qed.

Lemma between_within lo hi cs :
  forallb (fun c => match cell_between lo hi c with Ok b => b | Raise _ => false end) cs = true ->
  exists m, traverse (cell_between lo hi) cs = Ok m
            /\ length m = length cs /\ forallb id m = true.
Proof.
  induction cs as [|c cs IH]; simpl.
  - exists []. auto.
  - intros H. apply andb_true_iff in H as [Hc Hcs].
    destruct (IH Hcs) as [m [Hm [Hlen Hall]]].
    unbind. rewrite Hm.
    destruct (cell_between lo hi c) as [b|]; [|discriminate].
    subst b. exists (true :: m). simpl. auto.
Qed.

Lemma between_numeric lo hi cs :
  forallb (fun c => match c with Str _ => false | _ => true end) cs = true ->
  exists m, traverse (cell_between lo hi) cs = Ok m /\ length m = length cs.
Proof.
  induction cs as [|c cs IH]; simpl.
  - exists []. auto.
  - intros H. apply andb_true_iff in H as [Hc Hcs].
    destruct (IH Hcs) as [m [Hm Hlen]]. unbind. rewrite Hm.
    destruct c; try discriminate; simpl; eexists; split; try reflexivity; simpl; congruence.
Qed.

Lemma isin_incl (s : Series) (inner outer : list cell) :
  incl inner outer ->
  Forall2 (fun a b => implb a b = true) (isin s inner) (isin s outer).
Proof.
  intros Hincl. unfold isin. induction (values s) as [|c cs IH]; simpl; constructor; auto.
  destruct (cell_isin inner c) eqn:E; simpl; auto.
  eapply cell_isin_incl; eauto.
Qed.

Lemma isin_covered (s : Series) (vals : list cell) :
  forallb (cell_isin vals) (unique (values s)) = true ->
  forallb id (isin s vals) = true /\ length (isin s vals) = length (values s).
Proof.
  intros H. unfold isin. split; [|apply length_map].
  rewrite forallb_forall in H.
  apply forallb_forall. intros b Hb. apply in_map_iff in Hb as [c [<- Hc]].
  destruct (unique_represents _ _ Hc) as [d [Hd Hcd]].
  unfold id. eapply cell_isin_eqb; eauto.
Qed.

Lemma boolean_index_all df mask :
  well_formed df = true -> length mask = nrows df -> forallb id mask = true ->
  boolean_index df mask = df.
Proof.
  intros Hwf Hlen Hall. destruct df as [idx cols]. unfold boolean_index. simpl.
  f_equal.
  - apply take_rows_all; auto.
  - unfold well_formed in Hwf. simpl in *. unfold nrows in *. simpl in *.
    induction cols as [|[n [d vs]] cols IH]; simpl in *; auto.
    apply andb_true_iff in Hwf as [Hs Hwf].
    unfold series_ok in Hs. simpl in Hs. apply andb_true_iff in Hs as [Hn _].
    apply Nat.eqb_eq in Hn.
    rewrite IH by assumption. unfold series_rows. simpl.
    rewrite take_rows_all; auto. congruence.
Qed.

Lemma boolean_index_none df mask :
  forallb negb mask = true -> nrows (boolean_index df mask) = 0%nat.
Proof.
  intros H. unfold nrows, boolean_index. simpl. now rewrite take_rows_none.
Qed.

Lemma loaded_well_formed df : loaded df = true -> well_formed df = true.
Proof. unfold loaded. intros H. now apply andb_true_iff in H as [H _]. Qed.

(** The year cells of a loaded table are numbers, so a range never fails
    on them. *)
Lemma loaded_year_numeric df s :
  loaded df = true -> find_column "Year" (columns df) = Some s ->
  forallb (fun c => match c with Num _ => true | _ => false end) (values s) = true.
Proof.
  unfold loaded, year_ok. intros H Hs. apply andb_true_iff in H as [Hwf Hy].
  rewrite Hs in Hy. apply andb_true_iff in Hy as [Hd Hna].
  destruct (well_formed_column _ _ _ Hwf Hs) as [_ Hfit].
  rewrite forallb_forall in Hfit, Hna. apply forallb_forall. intros c Hc.
  specialize (Hfit c Hc). specialize (Hna c Hc).
  destruct c; auto; try discriminate.
  destruct (dtype s); simpl in *; discriminate.
Qed.

(** On a loaded table that has the Player_Name column, a year range that
    holds every year of the table together with a selection that holds
    every distinct player gives the table back: same index, same
    columns, same cells. *)
Lemma filter_everything_is_identity df selected_years selected_players :
  loaded df = true ->
  has_column df "Player_Name" = true ->
  years_within df selected_years = true ->
  forallb (cell_isin selected_players) (distinct_players df) = true ->
  filtered_df df selected_years selected_players = Ok df.
Proof.
  intros Hl Hp Hy Hsel. pose proof (loaded_well_formed _ Hl) as Hwf.
  apply has_column_find in Hp as [players Hplayers].
  unfold distinct_players in Hsel. rewrite Hplayers in Hsel.
  destruct (isin_covered players selected_players Hsel) as [Hall Hlen].
  destruct (well_formed_column _ _ _ Hwf Hplayers) as [Hplen _].
  unfold filtered_df, getitem, has_column, years_within in *.
  rewrite Hplayers.
  destruct (find_column "Year" (columns df)) as [year|] eqn:Hyear; unbind; simpl.
  - destruct selected_years as [[lo hi]|]; [|discriminate].
    destruct (between_within lo hi _ Hy) as [m [Hm [Hmlen Hmall]]].
    destruct (well_formed_column _ _ _ Hwf Hyear) as [Hylen _].
    unfold year_mask, between. rewrite Hm. f_equal.
    apply boolean_index_all; auto using mask_and_all.
    rewrite mask_and_length; congruence.
  - f_equal. apply boolean_index_all; auto. congruence.
Qed.

(** C4.  Narrowing the year range or removing players from the selection
    never adds rows: the two filters fail together, with the same
    exception, or both answer and the narrower answer has no more rows. *)
Theorem filter_monotone df years years' players players' :
  narrower years' years ->
  incl players' players ->
  match filtered_df df years players, filtered_df df years' players' with
  | Ok wide, Ok narrow => nrows narrow <= nrows wide
  | Raise e, Raise e' => e = e'
  | _, _ => False
  end.
Proof.
  intros Hy Hp. unfold filtered_df, getitem.
  destruct (has_column df "Year"); unbind.
  - destruct (find_column "Year" (columns df)) as [year|]; [|reflexivity].
    destruct years as [[lo hi]|], years' as [[lo' hi']|]; simpl in Hy; try contradiction;
      simpl; [|reflexivity].
    destruct Hy as [Hlo Hhi].
    pose proof (between_narrower lo hi lo' hi' (values year) Hlo Hhi) as Hb.
    unfold between.
    destruct (traverse (cell_between lo hi) (values year)) as [m|],
             (traverse (cell_between lo' hi') (values year)) as [m'|];
      try contradiction; auto.
    destruct (find_column "Player_Name" (columns df)) as [s|]; [|reflexivity].
    unfold nrows, boolean_index. simpl.
    apply take_rows_le, mask_and_le; auto using isin_incl.
  - destruct (find_column "Player_Name" (columns df)) as [s|]; [|reflexivity].
    unfold nrows, boolean_index. simpl.
    apply take_rows_le. auto using isin_incl.
Qed.

(** C10.  A loaded table without the Player_Name column has no players
    to offer, and filtering it raises whatever is selected: with a year
    range of the slider, or without a Year column, the exception is the
    KeyError of [df['Player_Name']]. *)
Theorem filter_without_player_column_raises df selected_years selected_players :
  loaded df = true ->
  has_column df "Player_Name" = false ->
  distinct_players df = []
  /\ (exists e, filtered_df df selected_years selected_players = Raise e)
  /\ (selected_years <> None \/ has_column df "Year" = false ->
      filtered_df df selected_years selected_players = Raise (KeyError "Player_Name")).
Proof.
  intros Hl Hp. apply has_column_none in Hp.
  unfold distinct_players, filtered_df, getitem. rewrite Hp.
  split; [reflexivity|].
  destruct (has_column df "Year") eqn:Hy; unbind.
  - apply has_column_find in Hy as [year Hyear]. rewrite Hyear.
    destruct selected_years as [[lo hi]|]; simpl.
    + pose proof (loaded_year_numeric _ _ Hl Hyear) as Hnum.
      destruct (between_numeric lo hi (values year)) as [m [Hm _]].
      { rewrite forallb_forall in Hnum. apply forallb_forall. intros c Hc.
        specialize (Hnum c Hc). now destruct c. }
      unfold between. rewrite Hm. split; [eauto | reflexivity].
    + split; [eauto|]. intros [H|H]; congruence.
  - split; [eauto | reflexivity].
Qed.


(** With an empty selection no row is kept. *)
Lemma filter_empty_selection df selected_years filtered :
  filtered_df df selected_years [] = Ok filtered -> nrows filtered = 0%nat.
Proof.
  assert (Hnone : forall s, forallb negb (isin s []) = true).
  { intros s. unfold isin. induction (values s); simpl; auto. }
  unfold filtered_df, getitem. unbind.
  destruct (has_column df "Year").
  - destruct (find_column "Year" (columns df)) as [year|]; [|discriminate].
    destruct (year_mask year selected_years) as [m|]; [|discriminate].
    destruct (find_column "Player_Name" (columns df)) as [s|]; [|discriminate].
    intros [= <-]. apply boolean_index_none, mask_and_none_r, Hnone.
  - destruct (find_column "Player_Name" (columns df)) as [s|]; [|discriminate].
    intros [= <-]. apply boolean_index_none, Hnone.
Qed.

(** ** The slider's bounds *)

Lemma Qle_bool_total a b : Qle_bool a b = false -> Qle_bool b a = true.
Proof.
  intros H. apply Qle_bool_iff. apply Qlt_le_weak. apply Qnot_le_lt.
  intros Hle. apply Qle_bool_iff in Hle. congruence.
Qed.

Lemma fold_q_min qs q0 :
  let m := fold_left q_min qs q0 in
  In m (q0 :: qs) /\ forall q, In q (q0 :: qs) -> Qle_bool m q = true.
Proof.
  revert q0. induction qs as [|a qs IH]; intros q0; simpl.
  - split; [now left|]. intros q [<-|[]]. apply Qle_bool_iff, Qle_refl.
  - destruct (IH (q_min q0 a)) as [Hin Hle]. simpl in Hin, Hle. split.
    + destruct Hin as [Hin|Hin]; [|auto].
      rewrite <- Hin. unfold q_min. destruct (Qle_bool q0 a); auto.
    + intros q Hq.
      assert (Hm0 : Qle_bool (fold_left q_min qs (q_min q0 a)) (q_min q0 a) = true)
        by (apply Hle; now left).
      destruct Hq as [<-|[<-|Hq]]; [| |apply Hle; now right].
      * apply Qle_bool_iff in Hm0. apply Qle_bool_iff. eapply Qle_trans; [exact Hm0|].
        unfold q_min. destruct (Qle_bool q0 a) eqn:E; [apply Qle_refl|].
        apply Qle_bool_iff. now apply Qle_bool_total.
      * apply Qle_bool_iff in Hm0. apply Qle_bool_iff. eapply Qle_trans; [exact Hm0|].
        unfold q_min. destruct (Qle_bool q0 a) eqn:E; [now apply Qle_bool_iff | apply Qle_refl].
Qed.

Lemma fold_q_max qs q0 :
  let m := fold_left q_max qs q0 in
  In m (q0 :: qs) /\ forall q, In q (q0 :: qs) -> Qle_bool q m = true.
Proof.
  revert q0. induction qs as [|a qs IH]; intros q0; simpl.
  - split; [now left|]. intros q [<-|[]]. apply Qle_bool_iff, Qle_refl.
  - destruct (IH (q_max q0 a)) as [Hin Hle]. simpl in Hin, Hle. split.
    + destruct Hin as [Hin|Hin]; [|auto].
      rewrite <- Hin. unfold q_max. destruct (Qle_bool q0 a); auto.
    + intros q Hq.
      assert (Hm0 : Qle_bool (q_max q0 a) (fold_left q_max qs (q_max q0 a)) = true)
        by (apply Hle; now left).
      destruct Hq as [<-|[<-|Hq]]; [| |apply Hle; now right].
      * apply Qle_bool_iff in Hm0. apply Qle_bool_iff. eapply Qle_trans; [|exact Hm0].
        unfold q_max. destruct (Qle_bool q0 a) eqn:E; [now apply Qle_bool_iff | apply Qle_refl].
      * apply Qle_bool_iff in Hm0. apply Qle_bool_iff. eapply Qle_trans; [|exact Hm0].
        unfold q_max. destruct (Qle_bool q0 a) eqn:E; [apply Qle_refl|].
        apply Qle_bool_iff. now apply Qle_bool_total.
Qed.

Lemma int_whole q : whole q = true -> int (Num q) = Ok (Qnum q) /\ inject_Z (Qnum q) = q.
Proof.
  unfold whole. intros H. apply Z.eqb_eq in H. destruct q as [n d]. simpl in *.
  injection H as ->. rewrite Z.quot_1_r. auto.
Qed.

Lemma numbers_whole cs :
  forallb (fun c => match c with Num q => whole q | _ => false end) cs = true ->
  exists qs, numbers cs = Ok qs /\ cs = map Num qs /\ forallb whole qs = true.
Proof.
  induction cs as [|c cs IH]; simpl.
  - exists []. auto.
  - intros H. apply andb_true_iff in H as [Hc Hcs].
    destruct (IH Hcs) as [qs [Hqs [-> Hw]]].
    destruct c as [|q|s]; try discriminate.
    unbind. rewrite Hqs. exists (q :: qs). simpl. rewrite Hc, Hw. auto.
Qed.

(** When every year is a whole number and the table has a row, the
    slider's bounds [int(min)], [int(max)] hold every year. *)
Lemma year_bounds_within df :
  whole_years df = true ->
  (has_column df "Year" = true -> nrows df <> 0%nat) ->
  well_formed df = true ->
  exists bounds, year_bounds df = Ok bounds /\ years_within df bounds = true.
Proof.
  unfold whole_years, year_bounds, years_within, has_column, getitem.
  intros Hw Hrows Hwf.
  destruct (find_column "Year" (columns df)) as [year|] eqn:Hyear; [|eauto].
  destruct (well_formed_column _ _ _ Hwf Hyear) as [Hlen _].
  destruct (numbers_whole _ Hw) as [qs [Hqs [Hvals Hwhole]]].
  unbind. rewrite Hqs.
  destruct qs as [|q0 qs].
  { rewrite Hvals in Hlen. simpl in Hlen. exfalso. apply Hrows; auto. }
  simpl minimum. simpl maximum.
  destruct (fold_q_min qs q0) as [Hmin_in Hmin]. destruct (fold_q_max qs q0) as [Hmax_in Hmax].
  rewrite forallb_forall in Hwhole.
  destruct (int_whole _ (Hwhole _ Hmin_in)) as [-> Hlo].
  destruct (int_whole _ (Hwhole _ Hmax_in)) as [-> Hhi].
  eexists. split; [reflexivity|]. simpl.
  rewrite Hvals. apply forallb_forall. intros c Hc.
  apply in_map_iff in Hc as [q [<- Hq]]. simpl.
  rewrite Hlo, Hhi. rewrite Hmin, Hmax by exact Hq. reflexivity.
Qed.

(** ** Filtering and loading keep tables well formed *)

Lemma traverse_length {A B : Type} (f : A -> result B) (l : list A) (ys : list B) :
  traverse f l = Ok ys -> length ys = length l.
Proof.
  revert ys. induction l as [|x l IH]; intros ys; simpl.
  - now intros [= <-].
  - unbind. destruct (f x); [|discriminate].
    destruct (traverse f l) as [zs|]; [|discriminate].
    intros [= <-]. simpl. f_equal. now apply IH.
Qed.

Lemma take_rows_length {A B : Type} (mask : list bool) (xs : list A) (ys : list B) :
  length xs = length mask -> length ys = length mask ->
  length (take_rows mask xs) = length (take_rows mask ys).
Proof.
  revert xs ys. induction mask as [|b mask IH]; intros [|x xs] [|y ys]; simpl;
    try discriminate; auto.
  intros [= Hx] [= Hy]. destruct b; simpl; auto.
Qed.

Lemma take_rows_forallb {A : Type} (p : A -> bool) (mask : list bool) (xs : list A) :
  forallb p xs = true -> forallb p (take_rows mask xs) = true.
Proof.
  revert xs. induction mask as [|b mask IH]; intros [|x xs]; simpl; auto.
  intros H. apply andb_true_iff in H as [Hx Hxs].
  destruct b; simpl; rewrite ?Hx; simpl; auto.
Qed.

Lemma boolean_index_well_formed df mask :
  well_formed df = true -> length mask = nrows df ->
  well_formed (boolean_index df mask) = true.
Proof.
  unfold well_formed, nrows, boolean_index. simpl. intros Hwf Hlen.
  rewrite forallb_forall in Hwf. apply forallb_forall.
  intros c Hc. apply in_map_iff in Hc as [[n s] [<- Hin]]. simpl.
  specialize (Hwf _ Hin). unfold series_ok in *. simpl in *.
  apply andb_true_iff in Hwf as [Hn Hfit]. apply Nat.eqb_eq in Hn.
  apply andb_true_iff. split.
  - apply Nat.eqb_eq. apply take_rows_length; congruence.
  - now apply take_rows_forallb.
Qed.

(** The filtered table is again a loaded table, so the catalogue and the
    aggregator work on tables of the same kind as the filter. *)
Lemma filtered_df_loaded df selected_years selected_players filtered :
  loaded df = true ->
  filtered_df df selected_years selected_players = Ok filtered ->
  loaded filtered = true.
Proof.
  intros Hl Hf. pose proof (loaded_well_formed _ Hl) as Hwf.
  assert (Hmask : exists mask, filtered = boolean_index df mask /\ length mask = nrows df).
  { unfold filtered_df, getitem in Hf. unbind.
    destruct (has_column df "Year").
    - destruct (find_column "Year" (columns df)) as [year|] eqn:Hyear; [|discriminate].
      destruct selected_years as [[lo hi]|]; simpl in Hf; [|discriminate].
      unfold between in Hf.
      destruct (traverse (cell_between lo hi) (values year)) as [m|] eqn:Hm; [|discriminate].
      destruct (find_column "Player_Name" (columns df)) as [s|] eqn:Hs; [|discriminate].
      injection Hf as <-. eexists. split; [reflexivity|].
      apply traverse_length in Hm.
      destruct (well_formed_column _ _ _ Hwf Hyear) as [Hy _].
      destruct (well_formed_column _ _ _ Hwf Hs) as [Hp _].
      rewrite mask_and_length; unfold isin; rewrite ?length_map; congruence.
    - destruct (find_column "Player_Name" (columns df)) as [s|] eqn:Hs; [|discriminate].
      injection Hf as <-. eexists. split; [reflexivity|].
      destruct (well_formed_column _ _ _ Hwf Hs) as [Hp _].
      unfold isin. now rewrite length_map. }
  destruct Hmask as [mask [-> Hlen]].
  unfold loaded. apply andb_true_iff. split.
  - now apply boolean_index_well_formed.
  - unfold loaded, year_ok in *. apply andb_true_iff in Hl as [_ Hy].
    rewrite find_column_boolean_index.
    destruct (find_column "Year" (columns df)) as [year|]; simpl; [|reflexivity].
    apply andb_true_iff in Hy as [Hd Hna]. rewrite Hd. simpl.
    now apply take_rows_forallb.
Qed.

Section LoaderFacts.

Variable parse_number : string -> option (Z + Q).

Lemma to_numeric_ok n s :
  series_ok n s = true ->
  series_ok n (to_numeric parse_number s) = true
  /\ is_metric_dtype (dtype (to_numeric parse_number s)) = true.
Proof.
  unfold series_ok, to_numeric. intros H. apply andb_true_iff in H as [Hn Hfit].
  destruct (dtype s) eqn:Hd; simpl; rewrite ?Hd, ?Hn, ?Hfit; auto.
  rewrite length_map, Hn. simpl.
  destruct (forallb (reads_as_integer parse_number) (values s)) eqn:Hint; simpl.
  - split; [|reflexivity]. rewrite forallb_forall in Hint.
    apply forallb_forall. intros c Hc. apply in_map_iff in Hc as [c0 [<- Hc0]].
    specialize (Hint _ Hc0). unfold reads_as_integer in Hint. unfold coerce.
    destruct c0 as [| |t]; try discriminate.
    destruct (parse_number t) as [[z|q]|]; try discriminate. reflexivity.
  - split; [|reflexivity]. rewrite forallb_forall in Hfit.
    apply forallb_forall. intros c Hc. apply in_map_iff in Hc as [c0 [<- Hc0]].
    specialize (Hfit _ Hc0). unfold coerce.
    destruct c0 as [| |t]; try discriminate; auto.
    destruct (parse_number t) as [[z|q]|]; reflexivity.
Qed.

Lemma find_replace_column name s cols old other :
  find_column name cols = Some old ->
  find_column other (replace_column name s cols)
  = if String.eqb other name then Some s else find_column other cols.
Proof.
  induction cols as [|[n t] cols IH]; simpl; [discriminate|].
  destruct (String.eqb name n) eqn:E.
  - apply String.eqb_eq in E. subst n. intros _. simpl.
    destruct (String.eqb other name); reflexivity.
  - intros H. simpl. destruct (String.eqb other n) eqn:E2.
    + apply String.eqb_eq in E2. subst n.
      rewrite String.eqb_sym in E. now rewrite E.
    + now apply IH.
Qed.

Lemma replace_column_ok n name s cols :
  forallb (fun c => series_ok n (snd c)) cols = true ->
  series_ok n s = true ->
  forallb (fun c => series_ok n (snd c)) (replace_column name s cols) = true.
Proof.
  intros Hcols Hs. induction cols as [|[m t] cols IH]; simpl in *; auto.
  apply andb_true_iff in Hcols as [Ht Hcols].
  destruct (String.eqb name m); simpl; rewrite ?Hs, ?Ht; auto.
Qed.

Lemma coerce_column_well_formed df col :
  well_formed df = true -> well_formed (coerce_column parse_number df col) = true.
Proof.
  intros Hwf. unfold coerce_column.
  destruct (find_column col (columns df)) as [s|] eqn:Hs; [|exact Hwf].
  unfold well_formed, nrows in *. simpl.
  apply replace_column_ok; [exact Hwf|].
  apply find_column_In in Hs. rewrite forallb_forall in Hwf.
  specialize (Hwf _ Hs). simpl in Hwf. now apply to_numeric_ok.
Qed.

Lemma coerce_columns_well_formed cols df :
  well_formed df = true ->
  well_formed (fold_left (coerce_column parse_number) cols df) = true.
Proof.
  revert df. induction cols as [|c cols IH]; intros df Hwf; simpl; auto.
  apply IH. now apply coerce_column_well_formed.
Qed.

Lemma notna_kept cs : forallb notna (take_rows (map notna cs) cs) = true.
Proof.
  induction cs as [|c cs IH]; simpl; auto.
  destruct (notna c) eqn:E; simpl; [rewrite E|]; auto.
Qed.

(** Whatever [pd.read_csv] has parsed, as long as its columns fit their
    dtypes, the loader answers a loaded table. *)
Lemma load_data_loaded parsed :
  well_formed parsed = true -> loaded (load_data parse_number parsed) = true.
Proof.
  intros Hwf. unfold load_data.
  set (df := fold_left (coerce_column parse_number) numeric_cols parsed).
  assert (Hdf : well_formed df = true) by now apply coerce_columns_well_formed.
  clearbody df. unfold loaded.
  destruct (has_column df "Year") eqn:Hy.
  - apply has_column_find in Hy as [year Hyear].
    pose proof (coerce_column_well_formed df "Year" Hdf) as Hwf'.
    unfold dropna, coerce_column in *. rewrite Hyear in *. simpl.
    rewrite (find_replace_column _ _ _ _ _ Hyear). simpl.
    destruct (well_formed_column _ _ _ Hdf Hyear) as [Hlen Hfit].
    destruct (to_numeric_ok (nrows df) year) as [Hok Hd].
    { unfold series_ok. rewrite Hlen, Nat.eqb_refl, Hfit. reflexivity. }
    apply andb_true_iff. split.
    + apply boolean_index_well_formed; [exact Hwf'|].
      unfold series_ok in Hok. apply andb_true_iff in Hok as [Hn _].
      apply Nat.eqb_eq in Hn. now rewrite length_map.
    + unfold year_ok. rewrite find_column_boolean_index. simpl.
      rewrite (find_replace_column _ _ _ _ _ Hyear). simpl.
      rewrite Hd. simpl. apply notna_kept.
  - apply andb_true_iff. split; [exact Hdf|].
    unfold year_ok. apply has_column_none in Hy. now rewrite Hy.
Qed.

End LoaderFacts.

(** ** The metric catalogue *)

Lemma available_metrics_dtype df col :
  In col (available_metrics df) <->
  exists s, find_column col (columns df) = Some s /\ is_metric_dtype (dtype s) = true.
Proof.
  unfold available_metrics, column_names. rewrite filter_In. split.
  - intros [_ H]. destruct (find_column col (columns df)) as [s|]; [eauto | discriminate].
  - intros [s [Hs Hd]]. split.
    + apply find_column_names. eauto.
    + now rewrite Hs.
Qed.


(** In a well-formed table a column of a numeric dtype holds no text. *)
Lemma numeric_dtype_no_text df col s :
  well_formed df = true ->
  find_column col (columns df) = Some s ->
  is_metric_dtype (dtype s) = true ->
  all_numeric s = true.
Proof.
  intros Hwf Hs Hd. destruct (well_formed_column _ _ _ Hwf Hs) as [_ Hfit].
  rewrite forallb_forall in Hfit. unfold all_numeric. apply forallb_forall.
  intros c Hc. specialize (Hfit c Hc).
  destruct (dtype s), c; simpl in *; auto; discriminate.
Qed.

(** ** The catalogue follows the dtypes of the loaded table *)

Lemma boolean_index_metrics df mask :
  available_metrics (boolean_index df mask) = available_metrics df.
Proof.
  unfold available_metrics, column_names.
  assert (Hnames : map fst (columns (boolean_index df mask)) = map fst (columns df)).
  { unfold boolean_index. simpl. rewrite map_map. reflexivity. }
  rewrite Hnames. apply filter_ext. intros col.
  rewrite find_column_boolean_index.
  destruct (find_column col (columns df)); reflexivity.
Qed.

(** Filtering never changes which columns are listed. *)
Lemma filtered_df_metrics df selected_years selected_players filtered :
  filtered_df df selected_years selected_players = Ok filtered ->
  available_metrics filtered = available_metrics df.
Proof.
  unfold filtered_df, getitem. unbind.
  destruct (has_column df "Year").
  - destruct (find_column "Year" (columns df)); [|discriminate].
    destruct (year_mask _ _); [|discriminate].
    destruct (find_column "Player_Name" (columns df)); [|discriminate].
    intros [= <-]. apply boolean_index_metrics.
  - destruct (find_column "Player_Name" (columns df)); [|discriminate].
    intros [= <-]. apply boolean_index_metrics.
Qed.

(** C6 (amended).  A column is listed exactly when its dtype is int64
    or float64, and filtering does not change which columns are listed.
    In a well-formed table a listed column holds numbers and missing
    cells only, so a column with a text cell is never listed; a text
    column is not listed even when none of its cells is text. *)
Theorem catalogue_lists_numeric_dtypes df col :
  well_formed df = true ->
  (In col (available_metrics df) <->
   exists s, find_column col (columns df) = Some s /\ is_metric_dtype (dtype s) = true)
  /\ (forall s, find_column col (columns df) = Some s ->
        (In col (available_metrics df) -> all_numeric s = true)
        /\ (all_numeric s = false -> ~ In col (available_metrics df))
        /\ (dtype s = object -> ~ In col (available_metrics df)))
  /\ (forall selected_years selected_players filtered,
        filtered_df df selected_years selected_players = Ok filtered ->
        (In col (available_metrics filtered) <-> In col (available_metrics df))).
Proof.
  intros Hwf. split; [apply available_metrics_dtype|]. split.
  - intros s Hs.
    destruct (well_formed_column _ _ _ Hwf Hs) as [_ Hfit].
    rewrite forallb_forall in Hfit.
    assert (Hnum : In col (available_metrics df) -> all_numeric s = true).
    { intros Hin. apply available_metrics_dtype in Hin as [s' [Hs' Hd]].
      rewrite Hs in Hs'. injection Hs' as <-.
      unfold all_numeric. apply forallb_forall.
      intros c Hc. specialize (Hfit c Hc).
      destruct (dtype s), c; simpl in *; auto; discriminate. }
    split; [exact Hnum|]. split.
    + intros Hfalse Hin. rewrite (Hnum Hin) in Hfalse. discriminate.
    + intros Hobj Hin. apply available_metrics_dtype in Hin as [s' [Hs' Hd]].
      rewrite Hs in Hs'. injection Hs' as <-. rewrite Hobj in Hd. discriminate.
  - intros selected_years selected_players filtered Hf.
    now rewrite (filtered_df_metrics _ _ _ _ Hf).
Qed.

Section CoercedColumns.

Variable parse_number : string -> option (Z + Q).

Lemma to_numeric_dtype s : is_metric_dtype (dtype (to_numeric parse_number s)) = true.
Proof.
  unfold to_numeric. destruct (dtype s) eqn:E; simpl; rewrite ?E; auto.
  destruct (forallb _ _); reflexivity.
Qed.

Lemma coerce_column_find df col other :
  find_column other (columns (coerce_column parse_number df col))
  = if String.eqb other col
    then to_numeric parse_number <$> find_column other (columns df)
    else find_column other (columns df).
Proof.
  unfold coerce_column.
  destruct (find_column col (columns df)) as [s|] eqn:Hs; simpl.
  - rewrite (find_replace_column _ _ _ _ _ Hs).
    destruct (String.eqb other col) eqn:E; [|reflexivity].
    apply String.eqb_eq in E. subst other. now rewrite Hs.
  - destruct (String.eqb other col) eqn:E; [|reflexivity].
    apply String.eqb_eq in E. subst other. now rewrite Hs.
Qed.

Lemma coerce_column_typed df col : has_column df col = true ->
  typed_numeric (coerce_column parse_number df col) col.
Proof.
  intros H. apply has_column_find in H as [s Hs].
  exists (to_numeric parse_number s). rewrite coerce_column_find, String.eqb_refl, Hs.
  split; [reflexivity | apply to_numeric_dtype].
Qed.

Lemma coerce_column_keeps_typed df col other :
  typed_numeric df other -> typed_numeric (coerce_column parse_number df col) other.
Proof.
  intros [s [Hs Hd]]. unfold typed_numeric. rewrite coerce_column_find, Hs.
  destruct (String.eqb other col); simpl; eauto using to_numeric_dtype.
Qed.

Lemma coerce_column_has df col other :
  has_column (coerce_column parse_number df col) other = has_column df other.
Proof.
  unfold has_column. rewrite coerce_column_find.
  destruct (String.eqb other col), (find_column other (columns df)); reflexivity.
Qed.

Lemma coerce_columns_typed cols df col :
  has_column df col = true ->
  In col cols \/ typed_numeric df col ->
  typed_numeric (fold_left (coerce_column parse_number) cols df) col.
Proof.
  revert df. induction cols as [|c cols IH]; intros df Hhas H; simpl.
  - destruct H as [[]|H]. exact H.
  - apply IH; [now rewrite coerce_column_has|].
    destruct H as [[<-|H]|H]; auto using coerce_column_typed, coerce_column_keeps_typed.
Qed.

Lemma coerce_columns_has cols df other :
  has_column (fold_left (coerce_column parse_number) cols df) other = has_column df other.
Proof.
  revert df. induction cols as [|c cols IH]; intros df; simpl; auto.
  now rewrite IH, coerce_column_has.
Qed.

(** Every column of the coercion set that the file has, and the Year
    column, is listed after loading, whatever its cells were. *)
Lemma coerced_columns_listed parsed col :
  has_column parsed col = true ->
  In col numeric_cols \/ col = "Year" ->
  In col (available_metrics (load_data parse_number parsed)).
Proof.
  intros Hhas Hcol. apply available_metrics_dtype. unfold load_data.
  set (df := fold_left (coerce_column parse_number) numeric_cols parsed).
  assert (Hdf : has_column df col = true) by (subst df; now rewrite coerce_columns_has).
  assert (Htyped : col <> "Year" -> typed_numeric df col).
  { intros Hne. subst df. apply coerce_columns_typed; [exact Hhas|].
    destruct Hcol; [now left | contradiction]. }
  clearbody df.
  destruct (has_column df "Year") eqn:Hy.
  - assert (H : typed_numeric (coerce_column parse_number df "Year") col).
    { destruct (String.eqb col "Year") eqn:E.
      - apply String.eqb_eq in E. subst col. now apply coerce_column_typed.
      - apply String.eqb_neq in E. apply coerce_column_keeps_typed. auto. }
    destruct H as [s [Hs Hd]]. unfold dropna.
    destruct (find_column "Year" (columns (coerce_column parse_number df "Year"))).
    + rewrite find_column_boolean_index, Hs. simpl. eauto.
    + eauto.
  - apply Htyped. intros ->. congruence.
Qed.

End CoercedColumns.

(** ** The aggregator *)

Lemma traverse_total {A B : Type} (f : A -> result B) (l : list A) :
  (forall x, In x l -> exists y, f x = Ok y) ->
  exists ys, traverse f l = Ok ys /\ length ys = length l.
Proof.
  induction l as [|x l IH]; intros H; simpl.
  - exists []. auto.
  - destruct (H x) as [y Hy]; [now left|].
    destruct IH as [ys [Hys Hlen]]; [intros z Hz; apply H; now right|].
    unbind. rewrite Hy, Hys. exists (y :: ys). simpl. auto.
Qed.

Lemma aggregated_columns m df key metrics selected aggs :
  traverse (fun c => s ← getitem df c; Ok (c, s)) metrics = Ok selected ->
  traverse (fun cs => a ← aggregate_column m key (snd cs); Ok (fst cs, a)) selected = Ok aggs ->
  Forall2 (aggregate_of m df key) metrics aggs.
Proof.
  revert selected aggs. induction metrics as [|c metrics IH]; intros selected aggs; simpl.
  - intros [= <-]. simpl. intros [= <-]. constructor.
  - unfold getitem. unbind.
    destruct (find_column c (columns df)) as [s|] eqn:Hs; [|discriminate].
    destruct (traverse _ metrics) as [sel|] eqn:Hsel; [|discriminate].
    intros [= <-]. simpl. unbind. unfold aggregate_column at 1. simpl.
    destruct (is_metric_dtype (dtype s)) eqn:Hd; [|discriminate].
    destruct (traverse _ sel) as [rest|] eqn:Hrest; [|discriminate].
    intros [= <-]. constructor.
    + split; [reflexivity|]. exists s. auto.
    + eapply IH; eauto.
Qed.

Lemma comparison_df_inv m df metrics agg :
  comparison_df m df metrics = Ok agg ->
  exists key aggs,
    find_column "Player_Name" (columns df) = Some key
    /\ agg = {| index := seq 0 (length (group_keys key));
                columns := ("Player_Name", {| dtype := dtype key; values := group_keys key |})
                           :: aggs |}
    /\ find_column "Player_Name" aggs = None
    /\ Forall2 (aggregate_of m df key) metrics aggs.
Proof.
  unfold comparison_df, groupby_agg, getitem. unbind.
  destruct (find_column "Player_Name" (columns df)) as [key|]; [|discriminate].
  destruct (traverse _ metrics) as [selected|] eqn:Hsel; [|discriminate].
  destruct (traverse _ selected) as [aggs|] eqn:Haggs; [|discriminate].
  unfold reset_index. simpl.
  destruct (find_column "Player_Name" aggs) eqn:Hfree; [discriminate|].
  intros [= <-]. exists key, aggs. repeat split; auto.
  eapply aggregated_columns; eauto.
Qed.

Lemma find_aggregate m df key metrics aggs metric :
  Forall2 (aggregate_of m df key) metrics aggs ->
  In metric metrics ->
  exists a, find_column metric aggs = Some a /\ aggregate_of m df key metric (metric, a).
Proof.
  induction 1 as [|c [n a] metrics aggs Hc H IH]; simpl; [tauto|].
  intros Hin. destruct Hc as [Hn Hc]. simpl in Hn. subst n.
  destruct (String.eqb metric c) eqn:E.
  - apply String.eqb_eq in E. subst c. exists a. split; [reflexivity|]. split; auto.
  - apply String.eqb_neq in E. destruct Hin as [Hin|Hin]; [congruence|]. auto.
Qed.

Lemma row_of_found player cs :
  existsb (fun c => cell_equals c player) cs = true ->
  exists i c, row_of player cs = Some i /\ nth_error cs i = Some c
              /\ cell_equals c player = true.
Proof.
  induction cs as [|c cs IH]; simpl; [discriminate|].
  destruct (cell_equals c player) eqn:E.
  - intros _. exists 0%nat, c. auto.
  - simpl. intros H. destruct (IH H) as [i [d [Hi [Hd Hdp]]]].
    exists (S i), d. rewrite Hi. auto.
Qed.

Lemma lookup_map {A B : Type} (f : A -> B) (l : list A) (i : nat) (x : A) :
  nth_error l i = Some x -> map f l !! i = Some (f x).
Proof.
  revert i. induction l as [|y l IH]; intros [|i]; simpl; try discriminate.
  - now intros [= ->].
  - apply IH.
Qed.

Lemma cell_equals_eqb a b c :
  cell_equals a b = true -> cell_eqb a c = cell_eqb b c.
Proof.
  destruct a, b; simpl; try discriminate.
  - intros H. destruct c; auto.
    apply Qeq_bool_iff in H.
    destruct (Qeq_bool q q1) eqn:E1, (Qeq_bool q0 q1) eqn:E2; auto.
    + apply Qeq_bool_iff in E1. apply Qeq_bool_neq in E2.
      exfalso. apply E2. now rewrite <- H.
    + apply Qeq_bool_iff in E2. apply Qeq_bool_neq in E1.
      exfalso. apply E1. now rewrite H.
  - intros H. apply String.eqb_eq in H. now subst.
Qed.

Lemma reduce_nothing m cs :
  present cs = [] ->
  reduce m cs = match m with Sum => Num 0 | _ => NaN end.
Proof. unfold reduce. intros ->. destruct m; reflexivity. Qed.

Lemma aggregates_total m df key metrics :
  (forall c, In c metrics -> In c (available_metrics df)) ->
  exists selected aggs,
    traverse (fun c => s ← getitem df c; Ok (c, s)) metrics = Ok selected
    /\ traverse (fun cs => a ← aggregate_column m key (snd cs); Ok (fst cs, a)) selected = Ok aggs
    /\ map fst aggs = metrics.
Proof.
  induction metrics as [|c metrics IH]; intros H; simpl.
  - exists [], []. auto.
  - destruct IH as [selected [aggs [Hsel [Haggs Hnames]]]];
      [intros x Hx; apply H; now right|].
    destruct (proj1 (available_metrics_dtype df c) (H c (or_introl eq_refl))) as [s [Hs Hd]].
    unfold getitem in *. unbind. rewrite Hs, Hsel. eexists. eexists.
    split; [reflexivity|]. simpl. unbind. unfold aggregate_column at 1. simpl.
    rewrite Hd, Haggs. split; [reflexivity|]. simpl. now rewrite Hnames.
Qed.

(** With the Player_Name column there, metrics taken from the catalogue
    and Player_Name not among them, no reduction raises. *)
Lemma comparison_df_total m df metrics :
  has_column df "Player_Name" = true ->
  (forall c, In c metrics -> In c (available_metrics df)) ->
  ~ In "Player_Name" metrics ->
  exists agg, comparison_df m df metrics = Ok agg.
Proof.
  intros Hp Hm Hfree. apply has_column_find in Hp as [key Hkey].
  destruct (aggregates_total m df key metrics Hm) as [selected [aggs [Hsel [Haggs Hnames]]]].
  unfold comparison_df, groupby_agg, getitem in *. unbind.
  rewrite Hkey, Hsel, Haggs. unfold reset_index. simpl.
  destruct (find_column "Player_Name" aggs) as [s|] eqn:E; [|eauto].
  exfalso. apply Hfree. rewrite <- Hnames. apply find_column_names. eauto.
Qed.

(** Asking for the grouping column as a metric: the aggregated columns
    already hold its name, so [reset_index] cannot insert the key. *)
Lemma comparison_df_key_requested m df metrics key :
  find_column "Player_Name" (columns df) = Some key ->
  (forall c, In c metrics -> In c (available_metrics df)) ->
  In "Player_Name" metrics ->
  comparison_df m df metrics = Raise ValueError.
Proof.
  intros Hkey Hm Hname.
  destruct (aggregates_total m df key metrics Hm) as [selected [aggs [Hsel [Haggs Hnames]]]].
  unfold comparison_df, groupby_agg, getitem in *. unbind.
  rewrite Hkey, Hsel, Haggs. unfold reset_index. simpl.
  destruct (find_column "Player_Name" aggs) as [a|] eqn:E; [reflexivity|].
  exfalso. rewrite <- Hnames in Hname.
  apply find_column_names in Hname as [a Ha]. congruence.
Qed.

(** A table without rows aggregates to a table without rows. *)
Lemma aggregate_without_rows m df metrics agg :
  well_formed df = true -> nrows df = 0%nat ->
  comparison_df m df metrics = Ok agg -> nrows agg = 0%nat.
Proof.
  intros Hwf Hrows Hagg.
  apply comparison_df_inv in Hagg as [key [aggs [Hkey [-> _]]]].
  destruct (well_formed_column _ _ _ Hwf Hkey) as [Hlen _].
  rewrite Hrows in Hlen. apply length_zero_iff_nil in Hlen.
  unfold nrows, group_keys. simpl. now rewrite Hlen.
Qed.

(** The aggregate cell of a group without values, read off the
    aggregate table. *)
Lemma aggregate_cell_no_values m df metrics agg key s metric player :
  comparison_df m df metrics = Ok agg ->
  find_column "Player_Name" (columns df) = Some key ->
  find_column metric (columns df) = Some s ->
  In metric metrics ->
  has_row agg player = true ->
  present (group_cells key player s) = [] ->
  aggregate_cell agg player metric
  = Some match m with Sum => Num 0 | _ => NaN end.
Proof.
  intros Hagg Hkey Hs Hin Hrow Hnone.
  apply comparison_df_inv in Hagg as [key' [aggs [Hkey' [-> [Hfree Haggs]]]]].
  rewrite Hkey in Hkey'. injection Hkey' as <-.
  destruct (find_aggregate _ _ _ _ _ _ Haggs Hin) as [a [Ha [_ [s' [Hs' [_ Hval]]]]]].
  rewrite Hs in Hs'. injection Hs' as <-. simpl in Hval.
  unfold has_row in Hrow. unfold aggregate_cell. simpl in *.
  destruct (String.eqb metric "Player_Name") eqn:E.
  { apply String.eqb_eq in E. subst metric. congruence. }
  rewrite Ha. simpl.
  destruct (row_of_found _ _ Hrow) as [i [k [Hi [Hk Heq]]]].
  rewrite Hi. simpl. rewrite Hval. simpl.
  rewrite (lookup_map _ _ _ _ Hk). f_equal.
  rewrite <- (reduce_nothing m _ Hnone). f_equal.
  unfold group_cells. f_equal.
  apply map_ext. intros c. now apply cell_equals_eqb.
Qed.

(** The groups of the aggregate table are the players with a row. *)

Lemma insert_sorted_In x c l : In x (insert_sorted c l) <-> x = c \/ In x l.
Proof.
  induction l as [|d l IH]; simpl.
  - intuition.
  - destruct (cell_leb c d); simpl; rewrite ?IH; intuition.
Qed.

Lemma sort_cells_In x l : In x (sort_cells l) <-> In x l.
Proof.
  unfold sort_cells. induction l as [|c l IH]; simpl; [tauto|].
  rewrite insert_sorted_In, IH. intuition.
Qed.

Lemma unique_In x l : In x (unique l) -> In x l.
Proof.
  revert x. induction l as [|c l IH]; simpl; [tauto|].
  intros x [->|H]; [now left|]. apply filter_In in H as [H _]. right. now apply IH.
Qed.

Lemma cell_equals_notna a b : cell_equals a b = true -> notna a = true /\ notna b = true.
Proof. destruct a, b; simpl; try discriminate; auto. Qed.

Lemma cell_equals_eqb_notna a b : notna a = true -> cell_equals a b = cell_eqb a b.
Proof. destruct a, b; simpl; try discriminate; auto. Qed.

Lemma group_keys_rows (key : Series) player :
  existsb (fun c => cell_equals c player) (group_keys key)
  = existsb (fun c => cell_equals c player) (values key).
Proof.
  apply eq_true_iff_eq. rewrite !existsb_exists. unfold group_keys. split.
  - intros [k [Hk Heq]]. exists k. split; [|exact Heq].
    apply sort_cells_In, unique_In, filter_In in Hk. tauto.
  - intros [c [Hc Heq]].
    destruct (cell_equals_notna _ _ Heq) as [Hna _].
    destruct (unique_represents (List.filter notna (values key)) c) as [d [Hd Hcd]].
    { apply filter_In. auto. }
    exists d. split; [now apply sort_cells_In|].
    assert (Hd' : notna d = true).
    { apply unique_In, filter_In in Hd. tauto. }
    rewrite (cell_equals_eqb_notna _ _ Hd'), cell_eqb_sym.
    now rewrite <- (cell_equals_eqb _ _ d Heq).
Qed.

Lemma has_row_groups m df metrics agg key player :
  comparison_df m df metrics = Ok agg ->
  find_column "Player_Name" (columns df) = Some key ->
  has_row agg player = existsb (fun c => cell_equals c player) (values key).
Proof.
  intros Hagg Hkey.
  apply comparison_df_inv in Hagg as [key' [aggs [Hkey' [-> _]]]].
  rewrite Hkey in Hkey'. injection Hkey' as <-.
  unfold has_row. simpl. apply group_keys_rows.
Qed.

(** C2 (amended).  Take metrics from the catalogue and a player with a
    row in the table, whose rows hold no value of one of the metrics.
    Whenever the aggregate table is built, its cell for that player and
    metric is missing under mean, max and min, and 0 under sum.  The
    table is built without an exception unless "Player_Name" itself is
    among the requested metrics, and then [reset_index] raises
    [ValueError], whatever the method. *)
Theorem aggregate_of_no_values m df metrics key s metric player :
  find_column "Player_Name" (columns df) = Some key ->
  (forall c, In c metrics -> In c (available_metrics df)) ->
  In metric metrics ->
  find_column metric (columns df) = Some s ->
  existsb (fun c => cell_equals c player) (values key) = true ->
  present (group_cells key player s) = [] ->
  (forall agg,
     comparison_df m df metrics = Ok agg ->
     aggregate_cell agg player metric
     = Some match m with Sum => Num 0 | _ => NaN end)
  /\ (~ In "Player_Name" metrics ->
      exists agg, comparison_df m df metrics = Ok agg)
  /\ (In "Player_Name" metrics ->
      comparison_df m df metrics = Raise ValueError).
Proof.
  intros Hkey Hmetrics Hin Hs Hrow Hnone. repeat split.
  - intros agg Hagg. eapply aggregate_cell_no_values; eauto.
    now rewrite (has_row_groups _ _ _ _ _ _ Hagg Hkey).
  - intros Hfree. apply comparison_df_total; auto.
    apply has_column_find. eauto.
  - intros Hname. eapply comparison_df_key_requested; eauto.
Qed.

(** ** The radar loop *)

Lemma take_rows_nil {A : Type} (mask : list bool) (xs : list A) :
  length mask = length xs ->
  existsb id mask = false <-> take_rows mask xs = [].
Proof.
  revert xs. induction mask as [|b mask IH]; intros [|x xs]; simpl; try discriminate.
  - tauto.
  - intros [= Hlen]. destruct b; simpl.
    + split; discriminate.
    + now apply IH.
Qed.

Lemma existsb_map {A B : Type} (f : A -> B) (p : B -> bool) (l : list A) :
  existsb p (map f l) = existsb (fun x => p (f x)) l.
Proof. induction l; simpl; congruence. Qed.

Lemma traverse_map {A B : Type} (f : A -> result B) (g : A -> B) (l : list A) :
  (forall x, In x l -> f x = Ok (g x)) -> traverse f l = Ok (map g l).
Proof.
  induction l as [|x l IH]; intros H; simpl; [reflexivity|].
  unbind. rewrite (H x) by now left. rewrite IH; [reflexivity|].
  intros y Hy. apply H. now right.
Qed.

Lemma Forall2_map_self {A B : Type} (P : A -> B -> Prop) (h : A -> B) (l : list A) :
  (forall x, In x l -> P x (h x)) -> Forall2 P l (map h l).
Proof.
  induction l as [|x l IH]; intros H; simpl; constructor.
  - apply H. now left.
  - apply IH. intros y Hy. apply H. now right.
Qed.

(** [.values[0]] of the rows selected by [names == player] is the cell
    on the player's row. *)
Lemma first_cell_of_row player (ks vs : list cell) i :
  length vs = length ks -> row_of player ks = Some i ->
  vs !! i = Some (hd NaN (take_rows (map (fun c => cell_equals c player) ks) vs)).
Proof.
  revert vs i. induction ks as [|k ks IH]; intros [|v vs] i; simpl; try discriminate.
  intros [= Hlen]. destruct (cell_equals k player).
  - now intros [= <-].
  - destruct (row_of player ks) as [j|] eqn:Hj; simpl; [|discriminate].
    intros [= <-]. simpl. now apply IH.
Qed.

(** One turn of the loop: for a player who has an aggregate row, a
    trace holding the player's aggregate cells; for a player who has
    none, [IndexError] from [.values[0]]. *)
Lemma player_trace_spec m filtered metrics agg player :
  comparison_df m filtered metrics = Ok agg ->
  if has_row agg player
  then exists r, player_trace agg metrics player = Ok (Scatterpolar r metrics player)
                 /\ Forall2 (fun c x => aggregate_cell agg player c = Some x) metrics r
  else player_trace agg metrics player = Raise IndexError.
Proof.
  intros Hagg.
  apply comparison_df_inv in Hagg as [key [aggs [Hkey [-> [Hfree Haggs]]]]].
  unfold has_row, player_trace, getitem. simpl. unbind.
  set (names := {| dtype := dtype key; values := group_keys key |}).
  set (agg := {| index := _; columns := _ |}).
  set (mask := map (fun c => cell_equals c player) (group_keys key)).
  set (column := fun c => if String.eqb c "Player_Name" then names
                          else default names (find_column c aggs)).
  assert (Hfind : forall c, In c metrics ->
            find_column c (columns agg) = Some (column c)
            /\ length (values (column c)) = length (group_keys key)).
  { intros c Hc. subst agg column. simpl.
    destruct (String.eqb c "Player_Name"); [auto|].
    destruct (find_aggregate _ _ _ _ _ _ Haggs Hc) as [a [Ha [_ [s [_ [_ Hval]]]]]].
    rewrite Ha. simpl in *. rewrite Hval. simpl. now rewrite length_map. }
  unfold first_row. unbind. rewrite traverse_map with (g := fun c => series_rows mask (column c)).
  2:{ intros c Hc. unfold getitem. rewrite find_column_boolean_index.
      destruct (Hfind c Hc) as [-> _]. reflexivity. }
  assert (Hmask : length mask = length (seq 0 (length (group_keys key)))).
  { subst mask. now rewrite length_map, length_seq. }
  pose proof (take_rows_nil mask _ Hmask) as Hnil.
  subst mask. rewrite existsb_map in Hnil. unfold id in Hnil.
  destruct (existsb (fun c => cell_equals c player) (group_keys key)) eqn:E.
  - simpl index.
    destruct (take_rows _ (seq 0 (length (group_keys key)))) eqn:Et.
    + exfalso. destruct Hnil as [_ Hnil]. specialize (Hnil eq_refl). discriminate.
    + eexists. split; [reflexivity|]. rewrite map_map.
      apply Forall2_map_self. intros c Hc.
      destruct (Hfind c Hc) as [Hcol Hlen].
      destruct (row_of_found _ _ E) as [i [k [Hi _]]].
      unfold aggregate_cell. rewrite Hcol. subst agg. simpl. rewrite Hi. simpl.
      now apply first_cell_of_row.
  - simpl index. destruct Hnil as [Hnil _]. now rewrite (Hnil eq_refl).
Qed.

Lemma radar_traces_fail m filtered metrics agg selected_players :
  comparison_df m filtered metrics = Ok agg ->
  forallb (has_row agg) selected_players = false ->
  radar_traces agg metrics selected_players = Raise IndexError.
Proof.
  intros Hagg. unfold radar_traces.
  induction selected_players as [|p players IH]; simpl; [discriminate|].
  pose proof (player_trace_spec _ _ _ _ p Hagg) as Hp. unbind.
  destruct (has_row agg p); simpl.
  - destruct Hp as [r [-> _]]. intros H. now rewrite IH.
  - now rewrite Hp.
Qed.

(** C7 (amended).  The radar loop has no way around a selected player
    without an aggregate row: when each selected player has a row it
    gives one trace per player, in order, each holding that player's
    aggregate cells; as soon as one has none it raises [IndexError] and
    no trace at all comes out. *)
Theorem radar_loop_needs_every_player m filtered metrics agg selected_players :
  comparison_df m filtered metrics = Ok agg ->
  if forallb (has_row agg) selected_players
  then exists traces,
         radar_traces agg metrics selected_players = Ok traces
         /\ map trace_name traces = selected_players
         /\ Forall (fun t => Forall2 (fun c x => aggregate_cell agg (trace_name t) c = Some x)
                               metrics (trace_r t)) traces
  else radar_traces agg metrics selected_players = Raise IndexError.
Proof.
  intros Hagg. unfold radar_traces.
  induction selected_players as [|p players IH]; simpl.
  - exists []. auto.
  - pose proof (player_trace_spec _ _ _ _ p Hagg) as Hp. unbind.
    destruct (has_row agg p); simpl.
    + destruct Hp as [r [-> Hr]].
      destruct (forallb (has_row agg) players).
      * destruct IH as [traces [-> [Hnames Hcells]]]. eexists. split; [reflexivity|].
        simpl. rewrite Hnames. split; [reflexivity|]. constructor; auto.
      * now rewrite IH.
    + now rewrite Hp.
Qed.

(** On the Performance Analysis page nothing catches the exception: the
    page ends there and no chart has been shown. *)
Lemma radar_chart_page_fails filtered selected_players primary secondary metrics agg :
  metrics <> [] ->
  comparison_df Mean filtered metrics = Ok agg ->
  forallb (has_row agg) selected_players = false ->
  render (performance_analysis filtered selected_players RadarChart primary secondary metrics)
  = ([st_subheader "Interactive Visualizations"], Raise IndexError).
Proof.
  intros Hm Hagg Hrows.
  pose proof (radar_traces_fail _ _ _ _ _ Hagg Hrows) as Hloop.
  destruct selected_players as [|p players]; [discriminate|].
  destruct metrics as [|c metrics]; [congruence|].
  unfold render, performance_analysis, show, lift, mbind, page_bind.
  simpl Nat.ltb. cbv iota. rewrite Hagg, Hloop. reflexivity.
Qed.

(** On the comparison page the exception is caught: the table and the
    chart of the second tab stay, the radar chart is replaced by the
    error message and the debug preview. *)
Lemma radar_view_page_reports filtered selected_players metrics m viz_type agg :
  (2 <= length selected_players)%nat ->
  available_metrics filtered <> [] ->
  metrics <> [] ->
  comparison_df m filtered metrics = Ok agg ->
  forallb (has_row agg) selected_players = false ->
  exists debug,
    select_columns filtered ("Player_Name" :: metrics) = Ok debug /\
    render (advanced_comparisons filtered selected_players metrics m viz_type)
    = ([st_subheader "Comprehensive Player Comparison";
        st_subheader "📊 Comparison Results";
        st_dataframe agg;
        st_plotly_chart
          match viz_type with
          | CompareBars => px_bar_long agg "Player_Name"
          | CompareLines => px_line_long agg "Player_Name"
          | ScatterMatrix => px_scatter_matrix agg metrics "Player_Name"
          end;
        st_error_exception "Error generating comparison: " IndexError;
        st_write "Debug Info - Filtered Data:";
        st_write_frame (head debug)],
       Ok tt).
Proof.
  intros Hsel Hav Hm Hagg Hrows.
  pose proof (radar_traces_fail _ _ _ _ _ Hagg Hrows) as Hloop.
  assert (Hdebug : exists debug,
             select_columns filtered ("Player_Name" :: metrics) = Ok debug).
  { pose proof Hagg as Hinv.
    apply comparison_df_inv in Hinv as [key [aggs [Hkey [_ [_ Haggs]]]]].
    unfold select_columns.
    destruct (traverse_total (fun c => s ← getitem filtered c; Ok (c, s))
                ("Player_Name" :: metrics)) as [cols [Hcols _]].
    - intros c [<-|Hc]; unfold getitem; unbind.
      + rewrite Hkey. eauto.
      + destruct (find_aggregate _ _ _ _ _ _ Haggs Hc) as [_ [_ [_ [s [Hs _]]]]].
        rewrite Hs. eauto.
    - unbind. rewrite Hcols. eauto. }
  destruct Hdebug as [debug Hdebug]. exists debug. split; [exact Hdebug|].
  unfold render, advanced_comparisons.
  destruct (available_metrics filtered) as [|a avail]; [congruence|].
  destruct metrics as [|c metrics]; [congruence|].
  apply Nat.ltb_ge in Hsel.
  unfold show, lift, try_except, comparison_results, comparison_failed, mbind, page_bind.
  rewrite Hsel. simpl. rewrite Hagg. simpl. rewrite Hloop. simpl.
  rewrite Hdebug. reflexivity.
Qed.

(** ** The worked examples *)

(** C1.  Entities A and B with M = 10, 20 for A and 5 for B, the rows in
    any order and M an integer or a floating column: the aggregate table
    has the rows A and B and the column M, with mean A 15, B 5; sum A 30,
    B 5; max A 20, B 5; min A 10, B 5. *)
Theorem aggregation_example d rows m :
  is_metric_dtype d = true ->
  rows ≡ₚ rows_AB ->
  exists agg,
    comparison_df m (metric_table d rows) ["M"] = Ok agg
    /\ column_names agg = ["Player_Name"; "M"]
    /\ values <$> find_column "Player_Name" (columns agg) = Some [Str "A"; Str "B"]
    /\ aggregate_cell agg (Str "A") "M"
       = Some (Num match m with Mean => 15 | Sum => 30 | Max => 20 | Min => 10 end)
    /\ aggregate_cell agg (Str "B") "M" = Some (Num 5).
Proof.
  intros Hd Hperm. symmetry in Hperm.
  apply permutations_Permutation in Hperm.
  vm_compute in Hperm.
  repeat (apply elem_of_cons in Hperm as [->|Hperm]);
    [ .. | now apply elem_of_nil in Hperm ];
    destruct d; try discriminate; destruct m;
    eexists; (split; [vm_compute; reflexivity|]); vm_compute; auto.
Qed.

(** The scenario of the specification: the year 2020 and both players
    keep two rows, with mean runs 100 for A and 80 for B. *)
Lemma scenario_2020 :
  exists filtered,
    filtered_df scenario (Some (2020, 2020)%Z) [Str "A"; Str "B"] = Ok filtered
    /\ nrows filtered = 2%nat
    /\ aggregate Mean filtered ["Runs_Scored"] (Str "A") "Runs_Scored" = Some (Num 100)
    /\ aggregate Mean filtered ["Runs_Scored"] (Str "B") "Runs_Scored" = Some (Num 80).
Proof. eexists. split; [vm_compute; reflexivity|]. repeat split; vm_compute; reflexivity. Qed.

(** C5, at the input where it fails.  The script builds an empty player
    list for a table without the Player_Name column, and the filter then
    raises on that empty selection. *)
Theorem empty_selection_raises_without_player_column :
  loaded no_player_column = true
  /\ distinct_players no_player_column = []
  /\ year_bounds no_player_column = Ok (Some (2020, 2021)%Z)
  /\ filtered_df no_player_column (Some (2020, 2021)%Z) []
     = Raise (KeyError "Player_Name").
Proof. repeat split; vm_compute; reflexivity. Qed.


(** Where the column exists, the empty selection gives a table without
    rows and the aggregator gives an aggregate table without rows. *)
Lemma empty_selection_scenario m :
  exists filtered agg,
    filtered_df scenario (Some (2020, 2021)%Z) [] = Ok filtered
    /\ nrows filtered = 0%nat
    /\ comparison_df m filtered ["Runs_Scored"] = Ok agg
    /\ nrows agg = 0%nat.
Proof.
  destruct m; eexists; eexists; (split; [vm_compute; reflexivity|]); vm_compute; auto.
Qed.

(** C8, at the inputs where it fails.  With exactly one player selected
    the heatmap and the parallel-coordinates branches show nothing, no
    warning either, and so does the parallel-coordinates branch with two
    players and no metric ticked. *)
Theorem one_player_heatmap_is_silent filtered player other primary secondary metrics :
  render (performance_analysis filtered [player] Heatmap primary secondary metrics)
  = ([st_subheader "Interactive Visualizations"], Ok tt)
  /\ render (performance_analysis filtered [player] ParallelCoordinates primary secondary metrics)
     = ([st_subheader "Interactive Visualizations"], Ok tt)
  /\ render (performance_analysis filtered [player; other] ParallelCoordinates primary secondary [])
     = ([st_subheader "Interactive Visualizations"], Ok tt)
  /\ render (performance_analysis filtered [player; other] Heatmap primary secondary [])
     = ([st_subheader "Interactive Visualizations"], Ok tt).
Proof. repeat split. Qed.

(** The sibling branches do warn. *)
Lemma scatter_without_secondary_warns filtered player players primary metrics :
  render (performance_analysis filtered (player :: players) ScatterPlot primary None metrics)
  = ([st_subheader "Interactive Visualizations";
      st_warning "Please select a secondary metric for scatter plot"], Ok tt)
  /\ render (performance_analysis filtered (player :: players) ComboChart primary None metrics)
     = ([st_subheader "Interactive Visualizations";
         st_warning "Please select a secondary metric for combo chart"], Ok tt)
  /\ render (performance_analysis filtered [] Heatmap primary None metrics)
     = ([st_subheader "Interactive Visualizations";
         st_warning "Please select at least one player"], Ok tt).
Proof. repeat split. Qed.

(** ** Where the claims fail *)

(** C2 as stated fails for sum: player A of [no_values_for_A] has no
    value of M, and the sum aggregate is 0, not missing. *)
Lemma sum_of_no_values_is_zero :
  present (group_cells {| dtype := object; values := [Str "A"; Str "B"; Str "A"] |} (Str "A")
             {| dtype := float64; values := [NaN; Num 5; NaN] |}) = []
  /\ aggregate Sum no_values_for_A ["M"] (Str "A") "M" = Some (Num 0)
  /\ aggregate Sum no_values_for_A ["M"] (Str "A") "M" <> Some NaN.
Proof. repeat split; try (vm_compute; reflexivity). vm_compute. discriminate. Qed.

(** With numbered players the catalogue offers Player_Name itself, and
    asking for it raises under every method. *)
Lemma player_name_as_metric_raises m :
  In "Player_Name" (available_metrics numbered_players)
  /\ comparison_df m numbered_players ["Player_Name"; "Runs_Scored"] = Raise ValueError
  /\ exists agg, comparison_df m numbered_players ["Runs_Scored"] = Ok agg.
Proof.
  split; [simpl; auto|].
  destruct m; (split; [vm_compute; reflexivity | eexists; vm_compute; reflexivity]).
Qed.

(** The slider works in whole years: the bounds it offers for
    [half_season] are 2019 and 2020, and filtering with them and with
    every player selected drops the row of 2020.5. *)
Lemma full_range_drops_fractional_year :
  loaded half_season = true
  /\ year_bounds half_season = Ok (Some (2019, 2020)%Z)
  /\ exists filtered,
       filtered_df half_season (Some (2019, 2020)%Z) (distinct_players half_season)
       = Ok filtered
       /\ nrows filtered = 1%nat
       /\ filtered <> half_season.
Proof.
  split; [reflexivity|]. split; [reflexivity|].
  eexists. split; [vm_compute; reflexivity|]. split; [reflexivity|]. discriminate.
Qed.

(** C6 as stated fails from right to left: after filtering [with_notes]
    to player A, the Notes column has no cell that is not a number (its
    one cell is missing), yet it is a text column and is not listed. *)
Lemma text_column_without_text_not_listed :
  (forall parse_number, load_data parse_number with_notes = with_notes)
  /\ filtered_df with_notes None [Str "A"] = Ok notes_of_A
  /\ well_formed notes_of_A = true
  /\ (exists s, find_column "Notes" (columns notes_of_A) = Some s /\ all_numeric s = true)
  /\ ~ In "Notes" (available_metrics notes_of_A).
Proof.
  split; [reflexivity|]. split; [reflexivity|]. split; [reflexivity|].
  split; [eexists; split; reflexivity|].
  vm_compute. intros [H|[]]. discriminate.
Qed.

(** C7 as stated fails: with the range 2020 to 2020, player B of
    [two_seasons] is selected but has no aggregate row, and the loop
    raises instead of giving the trace of player A. *)
Lemma radar_fails_for_player_without_rows :
  filtered_df two_seasons (Some (2020, 2020)%Z) [Str "A"; Str "B"] = Ok season_2020
  /\ (exists agg, comparison_df Mean season_2020 ["Runs_Scored"] = Ok agg
                  /\ has_row agg (Str "A") = true
                  /\ has_row agg (Str "B") = false
                  /\ radar_traces agg ["Runs_Scored"] [Str "A"; Str "B"] = Raise IndexError)
  /\ render (performance_analysis season_2020 [Str "A"; Str "B"] RadarChart
               "Runs_Scored" None ["Runs_Scored"])
     = ([st_subheader "Interactive Visualizations"], Raise IndexError)
  /\ existsb shows_chart
       (fst (render (performance_analysis season_2020 [Str "A"; Str "B"] RadarChart
                       "Runs_Scored" None ["Runs_Scored"]))) = false.
Proof.
  split; [vm_compute; reflexivity|].
  split; [eexists; split; [vm_compute; reflexivity|]; repeat split; vm_compute; reflexivity|].
  split; vm_compute; reflexivity.
Qed.

(** ** The theorems at work on the example tables *)

Lemma aggregation_example_witness :
  is_metric_dtype float64 = true
  /\ [("B", 5%Q); ("A", 20%Q); ("A", 10%Q)] ≡ₚ rows_AB
  /\ exists agg,
       comparison_df Mean (metric_table float64 [("B", 5%Q); ("A", 20%Q); ("A", 10%Q)]) ["M"]
       = Ok agg
       /\ column_names agg = ["Player_Name"; "M"]
       /\ values <$> find_column "Player_Name" (columns agg) = Some [Str "A"; Str "B"]
       /\ aggregate_cell agg (Str "A") "M" = Some (Num 15)
       /\ aggregate_cell agg (Str "B") "M" = Some (Num 5).
Proof.
  assert (Hperm : [("B", 5%Q); ("A", 20%Q); ("A", 10%Q)] ≡ₚ rows_AB).
  { unfold rows_AB. rewrite (Permutation_rev [("B", 5%Q); ("A", 20%Q); ("A", 10%Q)]).
    simpl. reflexivity. }
  split; [reflexivity|]. split; [exact Hperm|].
  exact (aggregation_example float64 _ Mean eq_refl Hperm).
Defined.

Lemma aggregate_of_no_values_witness :
  existsb (fun c => cell_equals c (Str "A")) [Str "A"; Str "B"; Str "A"] = true
  /\ present (group_cells {| dtype := object; values := [Str "A"; Str "B"; Str "A"] |}
                (Str "A") {| dtype := float64; values := [NaN; Num 5; NaN] |}) = []
  /\ exists agg,
       comparison_df Max no_values_for_A ["M"] = Ok agg
       /\ aggregate_cell agg (Str "A") "M" = Some NaN.
Proof.
  split; [reflexivity|]. split; [reflexivity|].
  destruct (aggregate_of_no_values Max no_values_for_A ["M"]
              {| dtype := object; values := [Str "A"; Str "B"; Str "A"] |}
              {| dtype := float64; values := [NaN; Num 5; NaN] |} "M" (Str "A"))
    as [Hcell [Hbuilt _]]; try reflexivity.
  - intros c [<-|[]]. simpl. auto.
  - simpl. auto.
  - destruct Hbuilt as [agg Hagg].
    + intros [H|[]]. discriminate.
    + exists agg. split; [exact Hagg | exact (Hcell agg Hagg)].
Defined.


Lemma filter_monotone_witness :
  match filtered_df scenario (Some (2020, 2021)%Z) [Str "A"; Str "B"],
        filtered_df scenario (Some (2020, 2020)%Z) [Str "A"] with
  | Ok wide, Ok narrow => (nrows narrow <= nrows wide)%nat
  | Raise e, Raise e' => e = e'
  | _, _ => False
  end.
Proof.
  apply filter_monotone.
  - simpl. lia.
  - intros c [<-|[]]. simpl. auto.
Defined.

Lemma catalogue_lists_numeric_dtypes_witness :
  well_formed notes_of_A = true
  /\ In "Runs_Scored" (available_metrics notes_of_A)
  /\ ~ In "Notes" (available_metrics notes_of_A).
Proof.
  split; [reflexivity|].
  destruct (catalogue_lists_numeric_dtypes notes_of_A "Runs_Scored" eq_refl) as [Hlisted _].
  destruct (catalogue_lists_numeric_dtypes notes_of_A "Notes" eq_refl) as [Hnotes _].
  split.
  - apply Hlisted. eexists. split; reflexivity.
  - intros H. apply Hnotes in H as [s [Hs Hd]].
    vm_compute in Hs. injection Hs as <-. discriminate.
Defined.

Lemma radar_loop_needs_every_player_witness :
  comparison_df Mean season_2020 ["Runs_Scored"] = Ok season_2020_means
  /\ radar_traces season_2020_means ["Runs_Scored"] [Str "A"; Str "B"] = Raise IndexError
  /\ exists traces,
       radar_traces season_2020_means ["Runs_Scored"] [Str "A"] = Ok traces
       /\ map trace_name traces = [Str "A"]
       /\ Forall (fun t => Forall2 (fun c x => aggregate_cell season_2020_means (trace_name t) c
                                               = Some x)
                             ["Runs_Scored"] (trace_r t)) traces.
Proof.
  split; [reflexivity|]. split.
  - exact (radar_loop_needs_every_player Mean season_2020 ["Runs_Scored"]
             season_2020_means [Str "A"; Str "B"] eq_refl).
  - exact (radar_loop_needs_every_player Mean season_2020 ["Runs_Scored"]
             season_2020_means [Str "A"] eq_refl).
Defined.

Lemma filter_without_player_column_raises_witness :
  loaded no_player_column = true
  /\ has_column no_player_column "Player_Name" = false
  /\ filtered_df no_player_column (Some (2020, 2021)%Z) [Str "A"]
     = Raise (KeyError "Player_Name").
Proof.
  split; [reflexivity|]. split; [reflexivity|].
  destruct (filter_without_player_column_raises no_player_column
              (Some (2020, 2021)%Z) [Str "A"] eq_refl eq_refl) as [_ [_ H]].
  apply H. left. discriminate.
Defined.

(** * Further properties of the script *)

(** ** The loader (lines 9-31) *)

Lemma boolean_index_names df mask :
  column_names (boolean_index df mask) = column_names df.
Proof. unfold column_names, boolean_index. simpl. now rewrite map_map. Qed.

Lemma take_rows_length_le {A : Type} (mask : list bool) (xs : list A) :
  length (take_rows mask xs) <= length xs.
Proof.
  revert xs. induction mask as [|b mask IH]; intros [|x xs]; simpl; try lia.
  specialize (IH xs). destruct b; simpl; lia.
Qed.

Section LoaderShape.

Variable parse_number : string -> option (Z + Q).

Lemma to_numeric_idem s :
  to_numeric parse_number (to_numeric parse_number s) = to_numeric parse_number s.
Proof.
  pose proof (to_numeric_dtype parse_number s) as H.
  unfold to_numeric at 1. destruct (dtype (to_numeric parse_number s)); auto; discriminate.
Qed.

Lemma replace_column_names name s cols :
  map fst (replace_column name s cols) = map fst cols.
Proof.
  induction cols as [|[n t] cols IH]; simpl; [reflexivity|].
  destruct (String.eqb name n); simpl; congruence.
Qed.

Lemma coerce_column_shape df col :
  column_names (coerce_column parse_number df col) = column_names df
  /\ index (coerce_column parse_number df col) = index df.
Proof.
  unfold coerce_column, column_names.
  destruct (find_column col (columns df)); simpl; auto using replace_column_names.
Qed.

Lemma coerce_columns_shape cols df :
  column_names (fold_left (coerce_column parse_number) cols df) = column_names df
  /\ index (fold_left (coerce_column parse_number) cols df) = index df.
Proof.
  revert df. induction cols as [|c cols IH]; intros df; simpl; [auto|].
  destruct (IH (coerce_column parse_number df c)) as [-> ->].
  apply coerce_column_shape.
Qed.

Lemma coerce_columns_find cols df col :
  find_column col (columns (fold_left (coerce_column parse_number) cols df))
  = (if existsb (String.eqb col) cols then to_numeric parse_number else id)
      <$> find_column col (columns df).
Proof.
  revert df. induction cols as [|c cols IH]; intros df; simpl.
  - now destruct (find_column col (columns df)).
  - rewrite IH, coerce_column_find.
    destruct (String.eqb col c), (existsb (String.eqb col) cols),
      (find_column col (columns df)); simpl; auto.
    now rewrite to_numeric_idem.
Qed.

(** The loader column by column. *)
Lemma load_data_find parsed col :
  find_column col (columns (load_data parse_number parsed))
  = (fun s =>
       let s' := if existsb (String.eqb col) ("Year" :: numeric_cols)
                 then to_numeric parse_number s else s in
       if has_column parsed "Year"
       then series_rows (rows_kept parse_number parsed) s' else s')
      <$> find_column col (columns parsed).
Proof.
  unfold load_data, rows_kept.
  rewrite coerce_columns_has.
  change (existsb (String.eqb col) ("Year" :: numeric_cols))
    with (String.eqb col "Year" || existsb (String.eqb col) numeric_cols).
  pose proof (coerce_columns_find numeric_cols parsed col) as Hcol.
  pose proof (coerce_columns_find numeric_cols parsed "Year") as Hyr.
  change (existsb (String.eqb "Year") numeric_cols) with false in Hyr.
  set (df := fold_left (coerce_column parse_number) numeric_cols parsed) in *.
  set (b := existsb (String.eqb col) numeric_cols) in *.
  clearbody df b.
  destruct (has_column parsed "Year") eqn:Hy.
  - apply has_column_find in Hy as [year Hyear]. rewrite Hyear in *.
    assert (H1 : find_column "Year" (columns (coerce_column parse_number df "Year"))
                 = Some (to_numeric parse_number year)).
    { rewrite coerce_column_find, String.eqb_refl, Hyr. reflexivity. }
    unfold dropna. rewrite H1.
    rewrite find_column_boolean_index, coerce_column_find, Hcol.
    destruct (find_column col (columns parsed)) as [s|],
      (String.eqb col "Year"), b; simpl; auto.
    now rewrite to_numeric_idem.
  - rewrite Hcol. destruct (find_column col (columns parsed)) as [s|] eqn:Hs; [|reflexivity].
    destruct (String.eqb col "Year") eqn:E.
    + apply String.eqb_eq in E. subst col. apply has_column_none in Hy. congruence.
    + destruct b; reflexivity.
Qed.

(** X1.  Whatever [pd.read_csv] hands over, as long as its columns fit
    their dtypes: the loaded table is well formed again, and its Year
    column, when there is one, has no missing cell and no text cell. *)
Theorem loader_cleans_year parsed :
  well_formed parsed = true ->
  well_formed (load_data parse_number parsed) = true
  /\ forall year,
       find_column "Year" (columns (load_data parse_number parsed)) = Some year ->
       forallb notna (values year) = true /\ all_numeric year = true.
Proof.
  intros Hwf. pose proof (load_data_loaded parse_number parsed Hwf) as Hl.
  pose proof (loaded_well_formed _ Hl) as Hw.
  split; [exact Hw|]. intros year Hyear.
  pose proof (loaded_year_numeric _ _ Hl Hyear) as Hnum.
  rewrite forallb_forall in Hnum.
  split; [|unfold all_numeric]; apply forallb_forall; intros c Hc;
    specialize (Hnum c Hc); now destruct c.
Qed.

Lemma load_data_shape parsed :
  column_names (load_data parse_number parsed) = column_names parsed
  /\ index (load_data parse_number parsed)
     = (if has_column parsed "Year"
        then take_rows (rows_kept parse_number parsed) (index parsed)
        else index parsed).
Proof.
  unfold load_data, rows_kept. rewrite coerce_columns_has.
  destruct (coerce_columns_shape numeric_cols parsed) as [Hn Hi].
  pose proof (coerce_columns_find numeric_cols parsed "Year") as Hyr.
  change (existsb (String.eqb "Year") numeric_cols) with false in Hyr.
  set (df := fold_left (coerce_column parse_number) numeric_cols parsed) in *.
  clearbody df.
  destruct (has_column parsed "Year") eqn:Hy; [|auto].
  apply has_column_find in Hy as [year Hyear]. rewrite Hyear in *.
  assert (H1 : find_column "Year" (columns (coerce_column parse_number df "Year"))
               = Some (to_numeric parse_number year)).
  { rewrite coerce_column_find, String.eqb_refl, Hyr. reflexivity. }
  unfold dropna. rewrite H1, boolean_index_names.
  destruct (coerce_column_shape df "Year") as [Hn' Hi'].
  rewrite Hn', Hn. unfold boolean_index. simpl. rewrite Hi', Hi. auto.
Qed.

(** X2.  The loader keeps the columns and their order; it keeps the rows
    whose Year reads as a number, with their index labels, and every
    row when there is no Year column. *)
Theorem loader_keeps_shape parsed :
  column_names (load_data parse_number parsed) = column_names parsed
  /\ index (load_data parse_number parsed)
     = (if has_column parsed "Year"
        then take_rows (rows_kept parse_number parsed) (index parsed)
        else index parsed)
  /\ nrows (load_data parse_number parsed) <= nrows parsed.
Proof.
  destruct (load_data_shape parsed) as [Hn Hi]. split; [exact Hn|]. split; [exact Hi|].
  unfold nrows. rewrite Hi. destruct (has_column parsed "Year"); [|lia].
  apply take_rows_length_le.
Qed.

(** X3.  Column by column: a column of the coercion set, or Year, comes
    out as [to_numeric] of what was read, any other column as it was
    read, in both cases on the rows the loader keeps. *)
Theorem loader_column_by_column parsed col :
  find_column col (columns (load_data parse_number parsed))
  = (fun s =>
       let s' := if existsb (String.eqb col) ("Year" :: numeric_cols)
                 then to_numeric parse_number s else s in
       if has_column parsed "Year"
       then series_rows (rows_kept parse_number parsed) s' else s')
      <$> find_column col (columns parsed).
Proof. apply load_data_find. Qed.

(** X4.  After loading, a column of the coercion set, and Year, holds no
    text: whatever did not read as a number has become a missing
    cell. *)
Theorem coerced_columns_hold_no_text parsed col s :
  well_formed parsed = true ->
  In col numeric_cols \/ col = "Year" ->
  find_column col (columns (load_data parse_number parsed)) = Some s ->
  all_numeric s = true.
Proof.
  intros Hwf Hcol Hs.
  pose proof (loaded_well_formed _ (load_data_loaded parse_number parsed Hwf)) as Hw.
  apply (numeric_dtype_no_text _ col s Hw Hs).
  assert (Hhas : has_column parsed col = true).
  { apply has_column_find. apply find_column_names.
    destruct (load_data_shape parsed) as [Hn _]. unfold column_names in Hn.
    rewrite <- Hn. apply find_column_names. eauto. }
  pose proof (coerced_columns_listed parse_number parsed col Hhas Hcol) as Hin.
  apply available_metrics_dtype in Hin as [s' [Hs' Hd]]. congruence.
Qed.

(** X5.  When the file has a Year column and none of its cells reads as
    a number, the loaded table has no rows and the slider's bounds of
    line 55 raise [ValueError] ([int] of NaN). *)
Theorem unreadable_years_crash_slider parsed :
  has_column parsed "Year" = true ->
  forallb negb (rows_kept parse_number parsed) = true ->
  nrows (load_data parse_number parsed) = 0%nat
  /\ year_bounds (load_data parse_number parsed) = Raise ValueError.
Proof.
  intros Hy Hnone. split.
  - unfold nrows. destruct (load_data_shape parsed) as [_ ->].
    rewrite Hy. now rewrite take_rows_none.
  - unfold year_bounds, has_column, getitem.
    rewrite load_data_find. apply has_column_find in Hy as [year Hyear].
    unfold has_column. rewrite Hyear. simpl.
    rewrite take_rows_none by exact Hnone. reflexivity.
Qed.

End LoaderShape.

(** ** The sidebar (lines 53-72) *)

Lemma rem_bounds (a b : Z) :
  (0 < b)%Z ->
  ((0 <= a -> 0 <= Z.rem a b < b) /\ (a <= 0 -> - b < Z.rem a b <= 0))%Z.
Proof.
  intros Hb. split; intros Ha.
  - apply Z.rem_bound_pos; lia.
  - pose proof (Z.rem_bound_abs a b ltac:(lia)).
    pose proof (Z.rem_nonpos a b ltac:(lia) ltac:(lia)). lia.
Qed.

(** Truncation toward zero keeps the order of fractions. *)
Lemma trunc_le_Z (a c b d : Z) :
  (0 < b)%Z -> (0 < d)%Z ->
  (a * d <= c * b)%Z -> (Z.quot a b <= Z.quot c d)%Z.
Proof.
  intros Hb Hd H.
  pose proof (Z.quot_rem' a b) as Ha. pose proof (Z.quot_rem' c d) as Hc.
  pose proof (rem_bounds a b Hb) as Hr. pose proof (rem_bounds c d Hd) as Hs.
  set (x := Z.quot a b) in *. set (y := Z.quot c d) in *.
  set (r := Z.rem a b) in *. set (s := Z.rem c d) in *.
  clearbody x y r s.
  destruct (Z_le_gt_dec x y) as [|Hxy]; [assumption|exfalso].
  assert (H1 : (b * d * (y + 1) <= b * d * x)%Z) by (apply Z.mul_le_mono_nonneg_l; nia).
  destruct (Z_le_gt_dec 0 a) as [Ha0|Ha0], (Z_le_gt_dec 0 c) as [Hc0|Hc0].
  - destruct Hr as [Hr _], Hs as [Hs _]. specialize (Hr Ha0). specialize (Hs Hc0).
    assert ((a * d >= b * d * x)%Z) by nia.
    assert ((c * b < b * d * (y + 1))%Z) by nia. lia.
  - assert ((0 <= a * d)%Z) by nia. assert ((c * b < 0)%Z) by nia. lia.
  - destruct Hr as [_ Hr], Hs as [Hs _]. specialize (Hr ltac:(lia)). specialize (Hs Hc0).
    assert ((x <= 0)%Z) by nia. assert ((0 <= y)%Z) by nia. lia.
  - destruct Hr as [_ Hr], Hs as [_ Hs]. specialize (Hr ltac:(lia)). specialize (Hs ltac:(lia)).
    assert ((a * d > b * d * (x - 1))%Z) by nia.
    assert ((c * b <= b * d * y)%Z) by nia. nia.
Qed.

Lemma trunc_near (a b : Z) :
  (0 < b)%Z -> ((Z.quot a b - 1) * b < a /\ a < (Z.quot a b + 1) * b)%Z.
Proof.
  intros Hb. pose proof (Z.quot_rem' a b) as Ha.
  pose proof (rem_bounds a b Hb) as [Hr1 Hr2].
  destruct (Z_le_gt_dec 0 a) as [Ha0|Ha0].
  - specialize (Hr1 Ha0). nia.
  - specialize (Hr2 ltac:(lia)). nia.
Qed.

Lemma int_le p q lo hi :
  (p <= q)%Q -> int (Num p) = Ok lo -> int (Num q) = Ok hi -> (lo <= hi)%Z.
Proof.
  destruct p as [a b], q as [c d]. unfold Qle. simpl.
  intros H [= <-] [= <-]. apply trunc_le_Z; lia.
Qed.

(** [int] moves a number by less than one. *)
Lemma int_near q t :
  int (Num q) = Ok t -> (inject_Z (t - 1) < q /\ q < inject_Z (t + 1))%Q.
Proof.
  destruct q as [a b]. simpl. intros [= <-]. unfold Qlt. simpl.
  pose proof (trunc_near a (Z.pos b) ltac:(lia)). lia.
Qed.

(** [numbers] keeps every number of the column. *)
Lemma numbers_In cs qs q : numbers cs = Ok qs -> In (Num q) cs -> In q qs.
Proof.
  revert qs. induction cs as [|c cs IH]; intros qs; simpl; [tauto|].
  destruct c as [|q'|t]; try discriminate.
  - intros Hqs [H|H]; [discriminate | auto].
  - unbind. destruct (numbers cs) as [qs'|]; [|discriminate].
    intros [= <-] [[= ->]|H]; [now left | right; auto].
Qed.

(** X6.  Whenever line 55 gives the slider its bounds, they are in order
    and every year of the table lies within less than one of them:
    [int] truncates, so the range can miss a fractional year, but never
    by a whole year. *)
Theorem slider_bounds_near_years df lo hi :
  year_bounds df = Ok (Some (lo, hi)) ->
  (lo <= hi)%Z
  /\ exists year,
       find_column "Year" (columns df) = Some year
       /\ forall q, In (Num q) (values year) ->
            (inject_Z (lo - 1) < q /\ q < inject_Z (hi + 1))%Q.
Proof.
  unfold year_bounds, has_column, getitem.
  destruct (find_column "Year" (columns df)) as [year|] eqn:Hyear; [|discriminate].
  unbind. destruct (numbers (values year)) as [qs|] eqn:Hqs; [|discriminate].
  destruct qs as [|q0 qs]; [discriminate|].
  simpl minimum. simpl maximum.
  destruct (fold_q_min qs q0) as [_ Hmin]. destruct (fold_q_max qs q0) as [_ Hmax].
  set (l := fold_left q_min qs q0) in *. set (h := fold_left q_max qs q0) in *.
  destruct (int (Num l)) as [tl|] eqn:Hlo; [|discriminate].
  destruct (int (Num h)) as [th|] eqn:Hhi; [|discriminate].
  intros [= <- <-].
  assert (Hq : forall q, In q (q0 :: qs) -> (l <= q /\ q <= h)%Q).
  { intros q Hin. split; apply Qle_bool_iff; auto. }
  split.
  - eapply int_le; [|exact Hlo|exact Hhi].
    destruct (Hq q0 (or_introl eq_refl)) as [H1 H2]. eapply Qle_trans; eauto.
  - exists year. split; [reflexivity|]. intros q Hc.
    destruct (Hq q (numbers_In _ _ _ Hqs Hc)) as [H1 H2].
    destruct (int_near _ _ Hlo) as [Hl1 _]. destruct (int_near _ _ Hhi) as [_ Hh2].
    split; [eapply Qlt_le_trans | eapply Qle_lt_trans]; eauto.
Qed.

(** X7.  When every year is a whole number and the table has a row, the
    slider's bounds hold every year of the table. *)
Theorem slider_bounds_hold_whole_years df :
  well_formed df = true ->
  whole_years df = true ->
  (has_column df "Year" = true -> nrows df <> 0%nat) ->
  exists bounds, year_bounds df = Ok bounds /\ years_within df bounds = true.
Proof. intros Hwf Hw Hrows. now apply year_bounds_within. Qed.

Lemma ForallOrdPairs_filter {A : Type} (R : A -> A -> Prop) (p : A -> bool) (l : list A) :
  ForallOrdPairs R l -> ForallOrdPairs R (List.filter p l).
Proof.
  induction 1 as [|a l Ha H IH]; simpl; [constructor|].
  destruct (p a); [|exact IH]. constructor; [|exact IH].
  rewrite List.Forall_forall in *. intros x Hx. apply filter_In in Hx as [Hx _]. auto.
Qed.

Lemma unique_distinct cs : ForallOrdPairs (fun a b => cell_eqb a b = false) (unique cs).
Proof.
  induction cs as [|c cs IH]; simpl; constructor.
  - apply List.Forall_forall. intros d Hd. apply filter_In in Hd as [_ Hd].
    rewrite cell_eqb_sym. now destruct (cell_eqb d c).
  - now apply ForallOrdPairs_filter.
Qed.

(** X8.  The players offered in the sidebar: every name of the column is
    offered, every offered name is in the column, and no name is
    offered twice. *)
Theorem unique_lists_each_value_once cs :
  (forall c, In c cs -> exists d, In d (unique cs) /\ cell_eqb c d = true)
  /\ (forall d, In d (unique cs) -> In d cs)
  /\ ForallOrdPairs (fun a b => cell_eqb a b = false) (unique cs).
Proof.
  split; [apply unique_represents|]. split; [intros d; apply unique_In|].
  apply unique_distinct.
Qed.

(** ** The filter (lines 74-81) *)

Lemma take_rows_map {A B : Type} (f : A -> B) (mask : list bool) (xs : list A) :
  map f (take_rows mask xs) = take_rows mask (map f xs).
Proof.
  revert xs. induction mask as [|b mask IH]; intros [|x xs]; simpl; auto.
  destruct b; simpl; now rewrite IH.
Qed.

Lemma mask_and_nil_r (a : list bool) : mask_and a [] = [].
Proof. now destruct a. Qed.

Lemma take_rows_mask_and (mask a b : list bool) :
  mask_and (take_rows mask a) (take_rows mask b) = take_rows mask (mask_and a b).
Proof.
  revert a b. induction mask as [|m mask IH]; intros [|x a] [|y b]; simpl;
    rewrite ?mask_and_nil_r; auto.
  destruct m; simpl; now rewrite IH.
Qed.

Lemma take_rows_nil_r {A : Type} (mask : list bool) : take_rows mask (@nil A) = [].
Proof. now destruct mask. Qed.

Lemma take_rows_twice {A : Type} (inner outer : list bool) (xs : list A) :
  Forall2 (fun a b => implb a b = true) inner outer ->
  take_rows (take_rows outer inner) (take_rows outer xs) = take_rows inner xs.
Proof.
  intros H. revert xs. induction H as [|a b inner outer Hab H IH]; intros xs.
  - now destruct xs.
  - destruct xs as [|x xs]; [now rewrite !take_rows_nil_r|].
    destruct a, b; simpl in *; try discriminate; now rewrite IH.
Qed.

(** A range that answers on a column answers cell by cell. *)
Lemma between_cells lo hi cs m :
  traverse (cell_between lo hi) cs = Ok m ->
  m = map (fun c => match cell_between lo hi c with Ok b => b | Raise _ => false end) cs
  /\ forallb (fun c => match c with Str _ => false | _ => true end) cs = true.
Proof.
  revert m. induction cs as [|c cs IH]; intros m; simpl.
  - now intros [= <-].
  - unbind. destruct (cell_between lo hi c) as [b|] eqn:Hc; [|discriminate].
    destruct (traverse (cell_between lo hi) cs) as [m'|]; [|discriminate].
    intros [= <-]. destruct (IH m' eq_refl) as [-> Hnum].
    split; [reflexivity|]. rewrite Hnum. destruct c; try discriminate; reflexivity.
Qed.

Lemma between_cells_ok lo hi cs :
  forallb (fun c => match c with Str _ => false | _ => true end) cs = true ->
  traverse (cell_between lo hi) cs
  = Ok (map (fun c => match cell_between lo hi c with Ok b => b | Raise _ => false end) cs).
Proof.
  induction cs as [|c cs IH]; simpl; [reflexivity|].
  intros H. apply andb_true_iff in H as [Hc Hcs]. unbind. rewrite (IH Hcs).
  destruct c; try discriminate; reflexivity.
Qed.

(** What the filter answers: the rows picked by a mask that tests each
    row's year and player. *)
Lemma filtered_df_mask df selected_years selected_players filtered :
  filtered_df df selected_years selected_players = Ok filtered ->
  exists players,
    find_column "Player_Name" (columns df) = Some players
    /\ match find_column "Year" (columns df) with
       | Some year =>
           exists lo hi,
             selected_years = Some (lo, hi)
             /\ forallb (fun c => match c with Str _ => false | _ => true end) (values year)
                = true
             /\ filtered
                = boolean_index df
                    (mask_and
                       (map (fun c => match cell_between lo hi c with
                                      | Ok b => b | Raise _ => false end) (values year))
                       (isin players selected_players))
       | None => filtered = boolean_index df (isin players selected_players)
       end.
Proof.
  unfold filtered_df, getitem, has_column. unbind.
  destruct (find_column "Year" (columns df)) as [year|].
  - destruct selected_years as [[lo hi]|]; simpl; [|discriminate].
    unfold between.
    destruct (traverse (cell_between lo hi) (values year)) as [m|] eqn:Hm; [|discriminate].
    destruct (find_column "Player_Name" (columns df)) as [players|]; [|discriminate].
    intros [= <-]. destruct (between_cells _ _ _ _ Hm) as [-> Hnum].
    exists players. split; [reflexivity|]. exists lo, hi. auto.
  - destruct (find_column "Player_Name" (columns df)) as [players|]; [|discriminate].
    intros [= <-]. eauto.
Qed.

Lemma take_rows_mask_and_l {A : Type} (p : A -> bool) (xs : list A) (other : list bool) :
  forallb p (take_rows (mask_and (map p xs) other) xs) = true.
Proof.
  revert other. induction xs as [|x xs IH]; intros [|o other]; simpl; auto.
  destruct (p x) eqn:Hp, o; simpl; rewrite ?Hp; simpl; auto.
Qed.

Lemma take_rows_mask_and_r {A : Type} (p : A -> bool) (xs : list A) (other : list bool) :
  forallb p (take_rows (mask_and other (map p xs)) xs) = true.
Proof.
  revert other. induction xs as [|x xs IH]; intros [|o other]; simpl; auto.
  destruct (p x) eqn:Hp, o; simpl; rewrite ?Hp; simpl; auto.
Qed.

Lemma take_rows_self {A : Type} (p : A -> bool) (xs : list A) :
  forallb p (take_rows (map p xs) xs) = true.
Proof.
  induction xs as [|x xs IH]; simpl; auto.
  destruct (p x) eqn:Hp; simpl; rewrite ?Hp; auto.
Qed.

(** X9.  Every row the filter keeps is in the selection: its year lies
    in the range and its player is one of the selected players. *)
Theorem filter_keeps_only_selected df selected_years selected_players filtered :
  filtered_df df selected_years selected_players = Ok filtered ->
  years_within filtered selected_years = true
  /\ players_within filtered selected_players = true.
Proof.
  intros H. apply filtered_df_mask in H as [players [Hp H]].
  unfold years_within, players_within.
  destruct (find_column "Year" (columns df)) as [year|] eqn:Hy.
  - destruct H as [lo [hi [-> [_ ->]]]].
    rewrite !find_column_boolean_index, Hy, Hp. simpl.
    split; [apply take_rows_mask_and_l|].
    unfold isin. apply take_rows_mask_and_r.
  - subst filtered. rewrite !find_column_boolean_index, Hy, Hp. simpl.
    split; [reflexivity|]. unfold isin. apply take_rows_self.
Qed.




Lemma between_cells_narrower lo hi lo' hi' cs :
  (lo <= lo')%Z -> (hi' <= hi)%Z ->
  Forall2 (fun a b => implb a b = true)
    (map (fun c => match cell_between lo' hi' c with Ok b => b | Raise _ => false end) cs)
    (map (fun c => match cell_between lo hi c with Ok b => b | Raise _ => false end) cs).
Proof.
  intros Hlo Hhi. induction cs as [|c cs IH]; simpl; constructor; auto.
  pose proof (cell_between_narrower lo hi lo' hi' c Hlo Hhi) as Hc.
  destruct (cell_between lo hi c), (cell_between lo' hi' c); try contradiction; auto.
Qed.

Lemma boolean_index_twice df inner outer :
  Forall2 (fun a b => implb a b = true) inner outer ->
  boolean_index (boolean_index df outer) (take_rows outer inner) = boolean_index df inner.
Proof.
  intros H. unfold boolean_index. simpl. f_equal.
  - now apply take_rows_twice.
  - rewrite map_map. apply map_ext. intros [n s]. simpl. f_equal.
    unfold series_rows. simpl. f_equal. now apply take_rows_twice.
Qed.

(** X11.  Filters compose: narrowing a filtered table further gives
    what the narrower filter gives on the original table; with the same
    range and selection, filtering a second time changes nothing. *)
Theorem filter_then_narrow df years players filtered years' players' :
  filtered_df df years players = Ok filtered ->
  narrower years' years ->
  incl players' players ->
  filtered_df filtered years' players' = filtered_df df years' players'.
Proof.
  intros H Hy Hincl. apply filtered_df_mask in H as [s [Hs H]].
  unfold filtered_df at 1 2. unfold has_column, getitem.
  destruct (find_column "Year" (columns df)) as [year|] eqn:Hyear.
  - destruct H as [lo [hi [-> [Hnum ->]]]].
    destruct years' as [[lo' hi']|]; simpl in Hy; [|contradiction].
    destruct Hy as [Hlo Hhi].
    rewrite !find_column_boolean_index, Hyear, Hs. simpl. unbind.
    unfold between. simpl.
    rewrite (between_cells_ok lo' hi' (values year) Hnum).
    rewrite (between_cells_ok lo' hi' (take_rows _ (values year)))
      by now apply take_rows_forallb.
    f_equal. unfold isin. simpl.
    rewrite !take_rows_map, take_rows_mask_and.
    apply boolean_index_twice, mask_and_le.
    + now apply between_cells_narrower.
    + now apply (isin_incl s).
  - subst filtered. rewrite !find_column_boolean_index, Hyear, Hs. simpl. unbind.
    f_equal. unfold isin. simpl. rewrite take_rows_map.
    apply boolean_index_twice. now apply (isin_incl s).
Qed.


(** ** The metric catalogue (lines 121-122, 319-320) *)

Lemma filter_sublist {A : Type} (p : A -> bool) (l : list A) : sublist (List.filter p l) l.
Proof.
  induction l as [|x l IH]; simpl; [constructor|].
  destruct (p x); [apply sublist_skip | apply sublist_cons]; exact IH.
Qed.

(** X12.  The catalogue lists columns in table order, and it is the
    same before and after filtering: which metrics are offered does not
    depend on the years and players selected. *)
Theorem catalogue_unchanged_by_filter df selected_years selected_players filtered :
  filtered_df df selected_years selected_players = Ok filtered ->
  available_metrics filtered = available_metrics df
  /\ sublist (available_metrics df) (column_names df).
Proof.
  intros H. split; [eapply filtered_df_metrics; eauto|].
  unfold available_metrics. apply filter_sublist.
Qed.

(** ** The aggregator (lines 197, 281, 340-348) *)

Lemma cell_leb_total a b : cell_leb a b = false -> cell_leb b a = true.
Proof.
  destruct a, b; simpl; try discriminate; auto.
  - apply Qle_bool_total.
  - intros H. destruct (String.leb_total s s0) as [H'|H']; congruence.
Qed.

Lemma insert_sorted_Sorted c l :
  Sorted (fun a b => cell_leb a b = true) l ->
  Sorted (fun a b => cell_leb a b = true) (insert_sorted c l).
Proof.
  induction 1 as [|d l Hl IH Hd]; simpl.
  - repeat constructor.
  - destruct (cell_leb c d) eqn:E.
    + repeat constructor; auto.
    + constructor; [exact IH|].
      destruct l as [|e l]; simpl.
      * constructor. now apply cell_leb_total.
      * destruct (cell_leb c e); constructor; [now apply cell_leb_total|].
        now inversion Hd.
Qed.

Lemma sort_cells_Sorted l : Sorted (fun a b => cell_leb a b = true) (sort_cells l).
Proof.
  unfold sort_cells. induction l as [|c l IH]; simpl; [constructor|].
  now apply insert_sorted_Sorted.
Qed.

Lemma insert_sorted_distinct c l :
  Forall (fun d => cell_eqb c d = false) l ->
  ForallOrdPairs (fun a b => cell_eqb a b = false) l ->
  ForallOrdPairs (fun a b => cell_eqb a b = false) (insert_sorted c l).
Proof.
  intros Hc H. induction H as [|d l Hd H IH]; simpl.
  - repeat constructor.
  - inversion Hc as [|? ? Hcd Hcl]; subst.
    destruct (cell_leb c d).
    + constructor; [exact Hc|]. constructor; auto.
    + constructor; [|auto].
      apply List.Forall_forall. intros x Hx. apply insert_sorted_In in Hx as [->|Hx].
      * now rewrite cell_eqb_sym.
      * rewrite List.Forall_forall in Hd. auto.
Qed.

Lemma sort_cells_distinct l :
  ForallOrdPairs (fun a b => cell_eqb a b = false) l ->
  ForallOrdPairs (fun a b => cell_eqb a b = false) (sort_cells l).
Proof.
  unfold sort_cells. induction 1 as [|c l Hc H IH]; simpl; [constructor|].
  apply insert_sorted_distinct; [|exact IH].
  apply List.Forall_forall. intros x Hx.
  apply (proj1 (sort_cells_In x l)) in Hx.
  rewrite List.Forall_forall in Hc. auto.
Qed.

Lemma insert_sorted_length c l : length (insert_sorted c l) = S (length l).
Proof.
  induction l as [|d l IH]; simpl; [reflexivity|].
  destruct (cell_leb c d); simpl; congruence.
Qed.

Lemma sort_cells_length l : length (sort_cells l) = length l.
Proof.
  unfold sort_cells. induction l as [|c l IH]; simpl; [reflexivity|].
  now rewrite insert_sorted_length, IH.
Qed.

Lemma filter_length_le {A : Type} (p : A -> bool) (l : list A) :
  length (List.filter p l) <= length l.
Proof. induction l as [|x l IH]; simpl; [lia|]. destruct (p x); simpl; lia. Qed.

Lemma unique_length cs : length (unique cs) <= length cs.
Proof.
  induction cs as [|c cs IH]; simpl; [lia|].
  pose proof (filter_length_le (fun d => negb (cell_eqb d c)) (unique cs)). lia.
Qed.

Lemma group_keys_length (key : Series) : length (group_keys key) <= length (values key).
Proof.
  unfold group_keys. rewrite sort_cells_length.
  pose proof (unique_length (List.filter notna (values key))).
  pose proof (filter_length_le notna (values key)). lia.
Qed.

Lemma aggregate_names m df key metrics aggs :
  Forall2 (aggregate_of m df key) metrics aggs -> map fst aggs = metrics.
Proof.
  induction 1 as [|c a metrics aggs [Hc _] H IH]; simpl; congruence.
Qed.

(** X13.  The aggregate table has the column Player_Name followed by
    the metrics asked for, and one row for each player who has a row in
    the table: the names come in ascending order, none twice, none
    missing, and a player has an aggregate row exactly when the player
    has a row in the table. *)
Theorem aggregate_rows_are_the_players m df metrics agg key :
  comparison_df m df metrics = Ok agg ->
  find_column "Player_Name" (columns df) = Some key ->
  column_names agg = "Player_Name" :: metrics
  /\ (exists names,
        find_column "Player_Name" (columns agg) = Some names
        /\ nrows agg = length (values names)
        /\ Sorted (fun a b => cell_leb a b = true) (values names)
        /\ ForallOrdPairs (fun a b => cell_eqb a b = false) (values names)
        /\ forallb notna (values names) = true)
  /\ (forall player,
        has_row agg player = existsb (fun c => cell_equals c player) (values key)).
Proof.
  intros Hagg Hkey. split; [|split].
  - apply comparison_df_inv in Hagg as [key' [aggs [_ [-> [_ Haggs]]]]].
    unfold column_names. simpl. f_equal. eapply aggregate_names; eauto.
  - apply comparison_df_inv in Hagg as [key' [aggs [Hkey' [-> _]]]].
    rewrite Hkey in Hkey'. injection Hkey' as <-.
    eexists. split; [reflexivity|]. unfold nrows. simpl.
    split; [apply length_seq|]. unfold group_keys.
    split; [apply sort_cells_Sorted|]. split.
    + apply sort_cells_distinct, unique_distinct.
    + apply forallb_forall. intros c Hc.
      apply sort_cells_In, unique_In, filter_In in Hc. tauto.
  - intros player. eapply has_row_groups; eauto.
Qed.

(** X14.  With the Player_Name column there, metrics taken from the
    catalogue and Player_Name not among them, no reduction raises, and
    the aggregate table has at most as many rows as the table: none when
    the table has none. *)
Theorem aggregator_answers df m metrics :
  well_formed df = true ->
  has_column df "Player_Name" = true ->
  (forall c, In c metrics -> In c (available_metrics df)) ->
  ~ In "Player_Name" metrics ->
  exists agg, comparison_df m df metrics = Ok agg /\ nrows agg <= nrows df.
Proof.
  intros Hwf Hp Hm Hfree.
  destruct (comparison_df_total m df metrics Hp Hm Hfree) as [agg Hagg].
  exists agg. split; [exact Hagg|].
  apply comparison_df_inv in Hagg as [key [aggs [Hkey [-> _]]]].
  destruct (well_formed_column _ _ _ Hwf Hkey) as [Hlen _].
  unfold nrows at 1. simpl. rewrite length_seq, <- Hlen. apply group_keys_length.
Qed.

Lemma row_of_none player cs :
  existsb (fun c => cell_equals c player) cs = false -> row_of player cs = None.
Proof.
  induction cs as [|c cs IH]; simpl; [reflexivity|].
  destruct (cell_equals c player); [discriminate|]. simpl. intros H. now rewrite IH.
Qed.

(** Each aggregate cell is the reduction of the cells the metric has on
    that player's rows; there is no cell for a player without rows. *)
Lemma aggregate_is_reduction m df metrics player metric :
  (forall c, In c metrics -> In c (available_metrics df)) ->
  ~ In "Player_Name" metrics ->
  In metric metrics ->
  aggregate m df metrics player metric = reduce m <$> group_of df player metric.
Proof.
  intros Hm Hfree Hin. unfold aggregate, group_of.
  destruct (find_column "Player_Name" (columns df)) as [key|] eqn:Hkey.
  - destruct (comparison_df_total m df metrics) as [agg Hagg]; auto.
    { apply has_column_find. eauto. }
    rewrite Hagg. pose proof (has_row_groups _ _ _ _ _ player Hagg Hkey) as Hrow.
    apply comparison_df_inv in Hagg as [key' [aggs [Hkey' [-> [Hnone Haggs]]]]].
    rewrite Hkey in Hkey'. injection Hkey' as <-.
    destruct (find_aggregate _ _ _ _ _ _ Haggs Hin) as [a [Ha [_ [s [Hs [Hd Hval]]]]]].
    simpl in Hval. rewrite Hs. simpl. rewrite Hd. simpl.
    unfold has_row in Hrow. simpl in Hrow. rewrite <- Hrow.
    unfold aggregate_cell. simpl.
    destruct (String.eqb metric "Player_Name") eqn:E.
    { apply String.eqb_eq in E. subst metric. congruence. }
    rewrite Ha. simpl.
    destruct (existsb (fun c => cell_equals c player) (group_keys key)) eqn:Hex.
    + destruct (row_of_found _ _ Hex) as [i [k [Hi [Hk Heq]]]].
      rewrite Hi. simpl. rewrite Hval. simpl.
      rewrite (lookup_map _ _ _ _ Hk). do 2 f_equal.
      unfold group_cells. f_equal. apply map_ext. intros c. now apply cell_equals_eqb.
    + now rewrite (row_of_none _ _ Hex).
  - simpl. unfold comparison_df, groupby_agg, getitem. rewrite Hkey. reflexivity.
Qed.

(** The cells of a group are the cells on the rows of its player. *)
Lemma take_rows_map_In {A B : Type} (f : A -> bool) (ks : list A) (vs : list B) v :
  In v (take_rows (map f ks) vs)
  <-> exists i k, ks !! i = Some k /\ f k = true /\ vs !! i = Some v.
Proof.
  revert vs. induction ks as [|k ks IH]; intros vs.
  - destruct vs; simpl; (split; [intros [] | intros [i [k [H _]]]; discriminate]).
  - destruct vs as [|v0 vs]; simpl.
    + split; [intros [] | intros [i [k' [_ [_ H]]]]; discriminate].
    + split.
      * intros H.
        assert (Hcase : (f k = true /\ v0 = v) \/ In v (take_rows (map f ks) vs)).
        { destruct (f k); [destruct H as [H|H]; auto | auto]. }
        destruct Hcase as [[Hk ->]|Hin].
        -- exists 0%nat, k. auto.
        -- apply IH in Hin as [i [k' [H1 [H2 H3]]]]. exists (S i), k'. auto.
      * intros [[|i] [k' [H1 [H2 H3]]]]; simpl in H1, H3.
        -- injection H1 as ->. injection H3 as ->. rewrite H2. now left.
        -- assert (Hin : In v (take_rows (map f ks) vs)) by (apply IH; eauto).
           destruct (f k); [now right | exact Hin].
Qed.

Lemma lookup_In {A : Type} (l : list A) (i : nat) (x : A) : l !! i = Some x -> In x l.
Proof.
  revert i. induction l as [|a l IH]; intros [|i]; simpl; try discriminate.
  - intros [= ->]. now left.
  - intros H. right. eauto.
Qed.

Lemma group_cells_In key player s c :
  notna player = true ->
  In c (group_cells key player s)
  <-> exists i name, values key !! i = Some name /\ cell_equals name player = true
                     /\ values s !! i = Some c.
Proof.
  intros Hp. unfold group_cells. rewrite take_rows_map_In.
  split; intros [i [name [H1 [H2 H3]]]]; exists i, name; (split; [exact H1|]);
    (split; [|exact H3]).
  - rewrite cell_eqb_sym, <- cell_equals_eqb_notna in H2; auto.
    destruct name, player; simpl in *; try discriminate; auto.
  - destruct (cell_equals_notna _ _ H2) as [Hn _].
    rewrite cell_eqb_sym, <- (cell_equals_eqb_notna _ _ Hn). exact H2.
Qed.

(** X15.  The smallest and the largest value the comparison shows for a
    player are values that player has in the table, and every value the
    player has for the metric lies between the two. *)
Theorem extreme_aggregates_are_values df metrics player metric :
  (forall c, In c metrics -> In c (available_metrics df)) ->
  ~ In "Player_Name" metrics ->
  In metric metrics ->
  (exists q, has_value df player metric q) ->
  exists lo hi,
    aggregate Min df metrics player metric = Some (Num lo)
    /\ aggregate Max df metrics player metric = Some (Num hi)
    /\ (exists q, has_value df player metric q /\ q == lo)%Q
    /\ (exists q, has_value df player metric q /\ q == hi)%Q
    /\ (forall q, has_value df player metric q -> lo <= q /\ q <= hi)%Q.
Proof.
  intros Hcat Hfree Hin [q1 [key [s [i1 [name1 [Hkey [Hs [Hk1 [He1 Hv1]]]]]]]]].
  assert (Hd : is_metric_dtype (dtype s) = true).
  { destruct (proj1 (available_metrics_dtype df metric) (Hcat _ Hin)) as [s' [Hs' Hd]].
    congruence. }
  destruct (cell_equals_notna _ _ He1) as [_ Hp].
  assert (Hrow : existsb (fun c => cell_equals c player) (values key) = true).
  { apply existsb_exists. exists name1. split; [|exact He1].
    eapply lookup_In. exact Hk1. }
  assert (Hval : forall q, has_value df player metric q
                           <-> In (Num q) (group_cells key player s)).
  { intros q. rewrite (group_cells_In _ _ _ _ Hp). split.
    - intros [key' [s' [i [name [Hkey' [Hs' H]]]]]].
      rewrite Hkey in Hkey'. rewrite Hs in Hs'.
      injection Hkey' as <-. injection Hs' as <-. eauto.
    - intros [i [name H]]. exists key, s, i, name. auto. }
  rewrite !aggregate_is_reduction by assumption.
  unfold group_of. rewrite Hkey, Hs. simpl. rewrite Hd, Hrow. simpl.
  set (cs := group_cells key player s) in *. clearbody cs.
  assert (Hpres : forall q, In (Num q) cs <-> In q (present cs)).
  { intros q. unfold present. rewrite in_flat_map. split.
    - intros H. exists (Num q). split; [exact H | now left].
    - intros [c [Hc Hqc]]. destruct c as [|q'|t]; simpl in Hqc; try tauto.
      destruct Hqc as [->|[]]. exact Hc. }
  assert (Hq1 : In q1 (present cs)).
  { apply Hpres, Hval. exists key, s, i1, name1. auto. }
  unfold reduce. destruct (present cs) as [|q0 qs] eqn:Hnone; [destruct Hq1|].
  destruct (fold_q_min qs q0) as [Hmin_in Hmin]. destruct (fold_q_max qs q0) as [Hmax_in Hmax].
  set (lo := fold_left q_min qs q0) in *. set (hi := fold_left q_max qs q0) in *.
  exists (Qred lo), (Qred hi). split; [reflexivity|]. split; [reflexivity|].
  split; [exists lo; split; [now apply Hval, Hpres | now rewrite Qred_correct]|].
  split; [exists hi; split; [now apply Hval, Hpres | now rewrite Qred_correct]|].
  intros q Hq. apply Hval, Hpres in Hq. rewrite !Qred_correct.
  split; apply Qle_bool_iff; auto.
Qed.


(** ** The two analysis pages (lines 114-309 and 312-425) *)

Lemma radar_traces_ok m filtered metrics agg selected_players :
  comparison_df m filtered metrics = Ok agg ->
  forallb (has_row agg) selected_players = true ->
  exists traces,
    radar_traces agg metrics selected_players = Ok traces
    /\ map trace_name traces = selected_players
    /\ Forall (fun t => Forall2 (fun c x => aggregate_cell agg (trace_name t) c = Some x)
                          metrics (trace_r t)) traces.
Proof.
  intros Hagg. unfold radar_traces.
  induction selected_players as [|p players IH]; simpl.
  - exists []. auto.
  - intros H. apply andb_true_iff in H as [Hp Hps].
    pose proof (player_trace_spec _ _ _ _ p Hagg) as Hspec. rewrite Hp in Hspec.
    destruct Hspec as [r [Hr Hcells]]. destruct (IH Hps) as [traces [Ht [Hn Hc]]].
    unbind. rewrite Hr, Ht. eexists. split; [reflexivity|]. simpl.
    rewrite Hn. split; [reflexivity|]. constructor; auto.
Qed.

(** X17.  The radar chart of the Performance Analysis page: with at
    least one metric, taken from the catalogue, and every selected
    player having a row in the filtered table, the page shows one radar
    chart, with one trace per selected player, in selection order, each
    holding that player's mean of every metric. *)
Theorem radar_chart_of_means filtered selected_players primary secondary metrics key :
  find_column "Player_Name" (columns filtered) = Some key ->
  selected_players <> [] ->
  metrics <> [] ->
  (forall c, In c metrics -> In c (available_metrics filtered)) ->
  ~ In "Player_Name" metrics ->
  forallb (fun p => existsb (fun c => cell_equals c p) (values key)) selected_players = true ->
  exists traces,
    render (performance_analysis filtered selected_players RadarChart primary secondary metrics)
    = ([st_subheader "Interactive Visualizations"; st_plotly_chart (go_radar traces)], Ok tt)
    /\ map trace_name traces = selected_players
    /\ Forall (fun t =>
                 Forall2 (fun c x => aggregate Mean filtered metrics (trace_name t) c = Some x)
                         metrics (trace_r t)) traces.
Proof.
  intros Hkey Hsel Hm Hcat Hfree Hrows.
  destruct (comparison_df_total Mean filtered metrics) as [agg Hagg]; auto.
  { apply has_column_find. eauto. }
  destruct (radar_traces_ok Mean filtered metrics agg selected_players Hagg)
    as [traces [Ht [Hn Hc]]].
  { apply forallb_forall. intros p Hp. rewrite forallb_forall in Hrows.
    rewrite (has_row_groups _ _ _ _ _ p Hagg Hkey). auto. }
  exists traces. split; [|split; [exact Hn|]].
  - destruct selected_players as [|p players]; [congruence|].
    destruct metrics as [|c metrics]; [congruence|].
    unfold render, performance_analysis, show, lift, mbind, page_bind.
    simpl Nat.ltb. cbv iota. rewrite Hagg, Ht. reflexivity.
  - unfold aggregate. rewrite Hagg. exact Hc.
Qed.


(** ** The table of missing values (lines 108-111) *)




(** ** When the filter answers *)

(** X22.  On a loaded table that has the Player_Name column the filter
    answers for every slider range and every selection, its answer is
    again a loaded table, and with nobody selected it has no rows. *)
Theorem filter_answers_on_loaded_tables df lo hi selected_players :
  loaded df = true ->
  has_column df "Player_Name" = true ->
  exists filtered,
    filtered_df df (Some (lo, hi)) selected_players = Ok filtered
    /\ loaded filtered = true
    /\ (selected_players = [] -> nrows filtered = 0%nat).
Proof.
  intros Hl Hp.
  assert (Hok : exists filtered,
            filtered_df df (Some (lo, hi)) selected_players = Ok filtered).
  { apply has_column_find in Hp as [players Hplayers].
    unfold filtered_df, getitem, has_column. rewrite Hplayers. unbind.
    destruct (find_column "Year" (columns df)) as [year|] eqn:Hyear; [|eauto].
    simpl. unfold between. rewrite between_cells_ok; [eauto|].
    pose proof (loaded_year_numeric _ _ Hl Hyear) as Hnum.
    rewrite forallb_forall in Hnum. apply forallb_forall. intros c Hc.
    specialize (Hnum c Hc). now destruct c. }
  destruct Hok as [filtered Hf]. exists filtered. split; [exact Hf|].
  split; [eapply filtered_df_loaded; eauto|].
  intros ->. eapply filter_empty_selection; eauto.
Qed.

(** X23.  Everything selected gives the table back.  On a loaded table
    that has the Player_Name column, a selection that holds every
    distinct player together with a year range that holds every year
    leaves the table as it is: same index, same columns, same cells.
    The slider's own bounds are such a range when the years are whole
    numbers and the table has a row. *)
Theorem full_selection_is_identity df selected_players :
  loaded df = true ->
  has_column df "Player_Name" = true ->
  forallb (cell_isin selected_players) (distinct_players df) = true ->
  (forall selected_years,
     years_within df selected_years = true ->
     filtered_df df selected_years selected_players = Ok df)
  /\ (whole_years df = true ->
      (has_column df "Year" = true -> nrows df <> 0%nat) ->
      exists bounds,
        year_bounds df = Ok bounds
        /\ filtered_df df bounds selected_players = Ok df).
Proof.
  intros Hl Hp Hsel. split.
  - intros selected_years Hy. now apply filter_everything_is_identity.
  - intros Hw Hrows.
    destruct (year_bounds_within df Hw Hrows (loaded_well_formed _ Hl)) as [bounds [Hb Hy]].
    exists bounds. split; [exact Hb|]. now apply filter_everything_is_identity.
Qed.

(** ** The further properties at work on the example tables *)

Lemma loader_cleans_year_witness :
  well_formed raw_seasons = true
  /\ values <$> find_column "Year" (columns (load_data parse_seasons raw_seasons))
     = Some [Num 2020; Num 2021]
  /\ well_formed (load_data parse_seasons raw_seasons) = true
  /\ forall year,
       find_column "Year" (columns (load_data parse_seasons raw_seasons)) = Some year ->
       forallb notna (values year) = true /\ all_numeric year = true.
Proof.
  split; [reflexivity|]. split; [reflexivity|].
  apply (loader_cleans_year parse_seasons raw_seasons). reflexivity.
Defined.

Lemma coerced_columns_hold_no_text_witness :
  well_formed raw_seasons = true
  /\ find_column "Runs_Scored" (columns (load_data parse_seasons raw_seasons))
     = Some {| dtype := float64; values := [Num 100; NaN] |}
  /\ all_numeric {| dtype := float64; values := [Num 100; NaN] |} = true.
Proof.
  split; [reflexivity|]. split; [reflexivity|].
  apply (coerced_columns_hold_no_text parse_seasons raw_seasons "Runs_Scored");
    [reflexivity | left; simpl; auto | reflexivity].
Defined.

Lemma unreadable_years_crash_slider_witness :
  has_column unreadable_years "Year" = true
  /\ forallb negb (rows_kept parse_100 unreadable_years) = true
  /\ nrows (load_data parse_100 unreadable_years) = 0%nat
  /\ year_bounds (load_data parse_100 unreadable_years) = Raise ValueError.
Proof.
  split; [reflexivity|]. split; [reflexivity|].
  apply (unreadable_years_crash_slider parse_100 unreadable_years); reflexivity.
Defined.

Lemma slider_bounds_near_years_witness :
  year_bounds half_season = Ok (Some (2019, 2020)%Z)
  /\ (2019 <= 2020)%Z
  /\ exists year,
       find_column "Year" (columns half_season) = Some year
       /\ forall q, In (Num q) (values year) ->
            (inject_Z (2019 - 1) < q /\ q < inject_Z (2020 + 1))%Q.
Proof.
  split; [reflexivity|].
  apply (slider_bounds_near_years half_season 2019 2020). reflexivity.
Defined.

Lemma slider_bounds_hold_whole_years_witness :
  whole_years scenario = true
  /\ exists bounds, year_bounds scenario = Ok bounds /\ years_within scenario bounds = true.
Proof.
  split; [reflexivity|].
  apply (slider_bounds_hold_whole_years scenario); [reflexivity|reflexivity|].
  intros _. vm_compute. discriminate.
Defined.

Lemma filter_keeps_only_selected_witness :
  filtered_df two_seasons (Some (2020, 2020)%Z) [Str "A"; Str "B"] = Ok season_2020
  /\ years_within season_2020 (Some (2020, 2020)%Z) = true
  /\ players_within season_2020 [Str "A"; Str "B"] = true.
Proof.
  split; [reflexivity|].
  apply (filter_keeps_only_selected two_seasons (Some (2020, 2020)%Z) [Str "A"; Str "B"]).
  reflexivity.
Defined.


Lemma filter_then_narrow_witness :
  filtered_df scenario (Some (2020, 2021)%Z) [Str "A"]
  = Ok {| index := [0; 1]%nat;
          columns :=
            [("Player_Name", {| dtype := object; values := [Str "A"; Str "A"] |});
             ("Year", {| dtype := int64; values := [Num 2020; Num 2021] |});
             ("Runs_Scored", {| dtype := int64; values := [Num 100; Num 150] |})] |}
  /\ filtered_df
       {| index := [0; 1]%nat;
          columns :=
            [("Player_Name", {| dtype := object; values := [Str "A"; Str "A"] |});
             ("Year", {| dtype := int64; values := [Num 2020; Num 2021] |});
             ("Runs_Scored", {| dtype := int64; values := [Num 100; Num 150] |})] |}
       (Some (2021, 2021)%Z) [Str "A"]
     = filtered_df scenario (Some (2021, 2021)%Z) [Str "A"].
Proof.
  split; [reflexivity|].
  apply (filter_then_narrow scenario (Some (2020, 2021)%Z) [Str "A"] _
           (Some (2021, 2021)%Z) [Str "A"]).
  - reflexivity.
  - simpl. lia.
  - intros c Hc. exact Hc.
Defined.

Lemma catalogue_unchanged_by_filter_witness :
  filtered_df with_notes None [Str "A"] = Ok notes_of_A
  /\ available_metrics notes_of_A = available_metrics with_notes
  /\ sublist (available_metrics with_notes) (column_names with_notes).
Proof.
  split; [reflexivity|].
  apply (catalogue_unchanged_by_filter with_notes None [Str "A"]). reflexivity.
Defined.

Lemma aggregate_rows_are_the_players_witness :
  comparison_df Mean season_2020 ["Runs_Scored"] = Ok season_2020_means
  /\ column_names season_2020_means = ["Player_Name"; "Runs_Scored"]
  /\ (exists names,
        find_column "Player_Name" (columns season_2020_means) = Some names
        /\ nrows season_2020_means = length (values names)
        /\ Sorted (fun a b => cell_leb a b = true) (values names)
        /\ ForallOrdPairs (fun a b => cell_eqb a b = false) (values names)
        /\ forallb notna (values names) = true)
  /\ (forall player,
        has_row season_2020_means player
        = existsb (fun c => cell_equals c player) [Str "A"]).
Proof.
  split; [reflexivity|].
  apply (aggregate_rows_are_the_players Mean season_2020 ["Runs_Scored"] season_2020_means
           {| dtype := object; values := [Str "A"] |}); reflexivity.
Defined.

Lemma aggregator_answers_witness :
  well_formed scenario = true
  /\ exists agg, comparison_df Sum scenario ["Runs_Scored"] = Ok agg
                 /\ nrows agg <= nrows scenario.
Proof.
  split; [reflexivity|].
  apply (aggregator_answers scenario Sum ["Runs_Scored"]); try reflexivity.
  - intros c [<-|[]]. simpl. auto.
  - intros [H|[]]. discriminate.
Defined.

Lemma extreme_aggregates_are_values_witness :
  has_value scenario (Str "A") "Runs_Scored" 150
  /\ aggregate Min scenario ["Runs_Scored"] (Str "A") "Runs_Scored" = Some (Num 100)
  /\ aggregate Max scenario ["Runs_Scored"] (Str "A") "Runs_Scored" = Some (Num 150)
  /\ exists lo hi,
       aggregate Min scenario ["Runs_Scored"] (Str "A") "Runs_Scored" = Some (Num lo)
       /\ aggregate Max scenario ["Runs_Scored"] (Str "A") "Runs_Scored" = Some (Num hi)
       /\ (exists q, has_value scenario (Str "A") "Runs_Scored" q /\ q == lo)%Q
       /\ (exists q, has_value scenario (Str "A") "Runs_Scored" q /\ q == hi)%Q
       /\ (forall q, has_value scenario (Str "A") "Runs_Scored" q -> lo <= q /\ q <= hi)%Q.
Proof.
  assert (H : has_value scenario (Str "A") "Runs_Scored" 150).
  { eexists. eexists. exists 1%nat. eexists. repeat split; reflexivity. }
  split; [exact H|]. split; [reflexivity|]. split; [reflexivity|].
  apply (extreme_aggregates_are_values scenario ["Runs_Scored"] (Str "A") "Runs_Scored").
  - intros c [<-|[]]. simpl. auto.
  - intros [E|[]]. discriminate.
  - simpl. auto.
  - exists 150%Q. exact H.
Defined.

Lemma radar_chart_of_means_witness :
  exists traces,
    render (performance_analysis scenario [Str "B"; Str "A"] RadarChart "Runs_Scored" None
              ["Runs_Scored"])
    = ([st_subheader "Interactive Visualizations"; st_plotly_chart (go_radar traces)], Ok tt)
    /\ map trace_name traces = [Str "B"; Str "A"]
    /\ Forall (fun t =>
                 Forall2 (fun c x => aggregate Mean scenario ["Runs_Scored"] (trace_name t) c
                                     = Some x)
                         ["Runs_Scored"] (trace_r t)) traces.
Proof.
  apply (radar_chart_of_means scenario [Str "B"; Str "A"] "Runs_Scored" None ["Runs_Scored"]
           {| dtype := object; values := [Str "A"; Str "A"; Str "B"] |});
    try reflexivity; try discriminate.
  - intros c [<-|[]]. simpl. auto.
  - intros [H|[]]. discriminate.
Defined.



Lemma full_selection_is_identity_witness :
  loaded scenario = true
  /\ distinct_players scenario = [Str "A"; Str "B"]
  /\ year_bounds scenario = Ok (Some (2020, 2021)%Z)
  /\ filtered_df scenario (Some (2020, 2021)%Z) [Str "B"; Str "A"] = Ok scenario
  /\ filtered_df scenario (Some (2000, 2100)%Z) [Str "B"; Str "A"] = Ok scenario.
Proof.
  split; [reflexivity|]. split; [reflexivity|]. split; [reflexivity|].
  destruct (full_selection_is_identity scenario [Str "B"; Str "A"]) as [Hany _];
    try reflexivity.
  split; apply Hany; reflexivity.
Defined.

Lemma filter_answers_on_loaded_tables_witness :
  loaded scenario = true
  /\ has_column scenario "Player_Name" = true
  /\ exists filtered,
       filtered_df scenario (Some (2019, 2030)%Z) [] = Ok filtered
       /\ loaded filtered = true
       /\ ([] = @nil cell -> nrows filtered = 0%nat).
Proof.
  split; [reflexivity|]. split; [reflexivity|].
  apply (filter_answers_on_loaded_tables scenario 2019 2030 []); reflexivity.
Defined.
